(** * Synthetic IoT telemetry generator for a mining site

    A shallow embedding of [synthetic_generator.py] and the properties of
    its device registry, type resolution, sample generator, start-up
    validation and per-device publish loop.

    Conventions of the embedding:
    - Python [int] is [Z]; [//] is [Z.div] (both round towards minus
      infinity for a positive divisor); [range(k)] is [seqZ 0 k].
    - Python [float] is idealised as an exact rational [Q]: rounding is not
      modelled.
    - a [dict] with string keys is a [gmap string _]; the metric table, whose
      iteration order fixes the order of the random draws, is an
      association list.
    - the [random] module, the clock and [json.dumps] are an interface
      ([Runtime]) whose operations thread an explicit state. *)

From Stdlib Require Import ZArith QArith Lia Lqa.
From Stdlib Require Import Strings.String Strings.Ascii Numbers.DecimalString
  Numbers.DecimalN.
From stdpp Require Import base tactics option list gmap strings fin_maps.

Local Open Scope string_scope.
Local Open Scope list_scope.
Local Open Scope Z_scope.

(** ** Python string helpers *)

Module PyStr.

(** [s.startswith(p)], by characters. *)
Fixpoint starts_with (p s : string) : bool :=
  match p, s with
  | EmptyString, _ => true
  | String _ _, EmptyString => false
  | String a p', String b s' => if Ascii.eqb a b then starts_with p' s' else false
  end.

(** [sub in s] on [str]: [sub] occurs at some position of [s]. *)
Fixpoint contains (sub s : string) : bool :=
  if starts_with sub s then true
  else match s with
       | EmptyString => false
       | String _ s' => contains sub s'
       end.

Fixpoint zeros (n : nat) : string :=
  match n with
  | O => EmptyString
  | S n' => String "0" (zeros n')
  end.

(** [s.zfill(w)] for a string without sign. *)
Definition zfill (w : nat) (s : string) : string :=
  zeros (w - String.length s) +:+ s.

(** [str(n)] for a natural number. *)
Definition digits (n : N) : string :=
  NilEmpty.string_of_uint (N.to_uint n).

(** The format specification [{i:03d}]: decimal, sign-aware zero padding to
    a total width of three characters. *)
Definition format_03d (i : Z) : string :=
  if decide (i < 0) then String "-" (zfill 2 (digits (Z.abs_N i)))
  else zfill 3 (digits (Z.to_N i)).

(** Reading a decimal numeral back (leading zeros allowed). *)
Definition parse_dec (s : string) : option N :=
  N.of_uint <$> NilEmpty.uint_of_string s.

Definition is_digit (c : ascii) : bool :=
  let n := nat_of_ascii c in (48 <=? n)%nat && (n <=? 57)%nat.

Fixpoint all_digits (s : string) : bool :=
  match s with
  | EmptyString => true
  | String c s' => is_digit c && all_digits s'
  end.

End PyStr.
Import PyStr.

(** ** Configuration (the dictionary returned by [load_config]) *)

Record config := Config {
  num_vehicles : Z;
  num_fixed_assets : Z;
  num_env_sensors : Z;
  num_personnel : Z;
  frequency : Z;
  variance : Q;
  seed : Z;
  mode : string;
  broker : string;
  port : Z;
  aws_endpoint : option string;
  cert : option string;
  key : option string;
  ca : option string
}.

(** [default_config] of [load_config]. *)
Definition default_config : config := {|
  num_vehicles := 5;
  num_fixed_assets := 10;
  num_env_sensors := 20;
  num_personnel := 15;
  frequency := 10;
  variance := 1 # 10;
  seed := 42;
  mode := "normal";
  broker := "localhost";
  port := 1883;
  aws_endpoint := None;
  cert := None;
  key := None;
  ca := None
|}.

(** ** Device registry (lines 76-82) *)

(** [l[:n]]: a negative bound counts from the end of the list. *)
Definition slice_to {A} (l : list A) (n : Z) : list A :=
  if decide (n < 0) then take (Z.to_nat (Z.of_nat (length l) + n)) l
  else take (Z.to_nat n) l.

Definition vehicle_tokens : list string := ["haul_truck"; "loader"; "excavator"].
Definition fixed_tokens : list string := ["fan"; "vent_system"; "conveyor"].
Definition env_tokens : list string :=
  ["co_co2"; "methane"; "dust"; "temp_hum"; "ground_stab"].

(** [[f"{pre}{typ}_{i:03d}" for typ in toks for i in range(m)]] *)
Definition id_grid (pre : string) (toks : list string) (m : Z) : list string :=
  typ ← toks; i ← seqZ 0 m; [pre +:+ typ +:+ "_" +:+ format_03d i].

Definition vehicles (c : config) : list string :=
  slice_to (id_grid "" vehicle_tokens (num_vehicles c / 3 + 1)) (num_vehicles c).

Definition fixed_assets (c : config) : list string :=
  slice_to (id_grid "" fixed_tokens (num_fixed_assets c / 3 + 1)) (num_fixed_assets c).

Definition env_sensors (c : config) : list string :=
  slice_to (id_grid "env_" env_tokens (num_env_sensors c / 5 + 1)) (num_env_sensors c).

Definition personnel (c : config) : list string :=
  i ← seqZ 0 (num_personnel c); ["personnel_" +:+ format_03d i].

Definition all_devices (c : config) : list string :=
  vehicles c ++ fixed_assets c ++ env_sensors c ++ personnel c.

(** ** Type resolution (lines 117-125) *)

(** The values of [typ]: ['vehicle'], ['fixed'], ['env'], ['personnel']. *)
Inductive type_name := vehicle | fixed | env | personnel_t.

(** [get_device_type]: the function has no [raise]; when no branch matches it
    falls off its end and returns Python's [None], which is [None] here. *)
Definition get_device_type (device_id : string) : option type_name :=
  if contains "truck" device_id || contains "loader" device_id
     || contains "excavator" device_id then Some vehicle
  else if contains "fan" device_id || contains "vent" device_id
     || contains "conveyor" device_id then Some fixed
  else if contains "env" device_id then Some env
  else if contains "personnel" device_id then Some personnel_t
  else None.

(** ** Python runtime services used by the script

    [random.random], [Random._randbelow] (which [random.choice] and
    [random.randint] are built on), [datetime.utcnow().isoformat()] and
    [json.dumps] are library code.  They are an interface here; every
    theorem holds for all its implementations, hence also for the draws one
    device thread happens to observe from the shared generator. *)

(** A metric value: a number, a nested dictionary of numbers, a label or a
    boolean. *)
Inductive value :=
  | VNum (x : Q)
  | VGroup (g : gmap string Q)
  | VStr (s : string)
  | VBool (b : bool).

(** The [payload] dictionary of [simulate_data] (lines 162-168). *)
Record payload := Payload {
  p_device_id : string;
  p_type : type_name;
  p_timestamp : string;
  p_metrics : gmap string value;
  p_status : string
}.

(** [random_random] is a float of [[0, 1)]; [randbelow n] is an integer
    below [n] for [n > 0]. *)
Class Runtime := {
  world : Type;
  random_random : world → Q * world;
  randbelow : nat → world → nat * world;
  utcnow_isoformat : world → string * world;
  json_dumps : payload → string;
  random_random_range : ∀ w, (0 <= (random_random w).1 ∧ (random_random w).1 < 1)%Q;
  randbelow_range : ∀ n w, (0 < n)%nat → ((randbelow n w).1 < n)%nat
}.

(** The exceptions the script can raise; [KeyError] carries the missing
    key, which is [None] or a string. *)
Inductive exn :=
  | ValueError (msg : string)
  | KeyError (k : option string)
  | TypeError.

(** [x < y] on numbers, as a test. *)
Definition Qltb (x y : Q) : bool := negb (Qle_bool y x).

(** ** Metric model (lines 85-114) *)

(** The shapes of table entry that [simulate_data] tells apart: a tuple
    [(lo, hi)], a dictionary of such tuples, a list of strings and a list of
    booleans.  A list is given by its first element [val[0]] and the rest. *)
Inductive rule :=
  | ScalarRange (lo hi : Q)
  | GroupRange (fields : list (string * (Q * Q)))
  | Categorical (o : string) (os : list string)
  | Boolean (o : bool) (os : list bool).

Definition metric_ranges (t : type_name) : list (string * rule) :=
  match t with
  | vehicle =>
      [ ("gps", GroupRange [("lat", (37.7, 37.8)); ("lon", (-122.5, -122.4))]);
        ("speed", ScalarRange 0 50);
        ("engine_temp", ScalarRange 60 90);
        ("vibration", ScalarRange 0.5 2.0);
        ("fuel_level", ScalarRange 20 100) ]
  | fixed =>
      [ ("vibration", ScalarRange 0.1 1.0);
        ("motor_temp", ScalarRange 40 70);
        ("operational_status", Categorical "running" ["idle"; "stopped"]);
        ("airflow_rate", ScalarRange 100 500);
        ("power_consumption", ScalarRange 500 2000) ]
  | env =>
      [ ("co_co2", ScalarRange 0 50);
        ("methane", ScalarRange 0 5);
        ("dust", ScalarRange 0 100);
        ("temp_hum", GroupRange [("temp", (10, 30)); ("hum", (40, 80))]);
        ("ground_vib", ScalarRange 0 1) ]
  | personnel_t =>
      [ ("co_level", ScalarRange 0 50);
        ("proximity_alert", Boolean false [true]);
        ("heart_rate", ScalarRange 60 100);
        ("location", GroupRange [("x", (0, 1000)); ("y", (0, 1000))]);
        ("fall_detection", Boolean false [true]) ]
  end%Q.

Section Generator.
Context `{RT : Runtime}.

(** [random.uniform(a, b)] is [a + (b - a) * random()]. *)
Definition uniform (a b : Q) (w : world) : Q * world :=
  let '(u, w1) := random_random w in ((a + (b - a) * u)%Q, w1).

(** [random.choice(seq)] is [seq[_randbelow(len(seq))]]. *)
Definition choice {A} (o : A) (os : list A) (w : world) : A * world :=
  let '(i, w1) := randbelow (length (o :: os)) w in (nth i (o :: os) o, w1).

(** [random.randint(a, b)] is [a + _randbelow(b - a + 1)]. *)
Definition randint (a b : Z) (w : world) : Z * world :=
  let '(i, w1) := randbelow (Z.to_nat (b - a + 1)) w in (a + Z.of_nat i, w1).

(** [random.uniform(lo, hi) * (1 + random.uniform(-variance, variance))] *)
Definition jittered (c : config) (r : Q * Q) (w : world) : Q * world :=
  let '(x, w1) := uniform r.1 r.2 w in
  let '(j, w2) := uniform (- variance c) (variance c) w1 in
  ((x * (1 + j))%Q, w2).

(** Filling a dictionary from [items] in order, one generated entry per
    item: the shape of both the [for] loop of line 136 and the dictionary
    comprehension of line 138. *)
Fixpoint fill {V R} (g : V → world → R * world) (items : list (string * V))
    (acc : gmap string R) (w : world) : gmap string R * world :=
  match items with
  | [] => (acc, w)
  | (k, v) :: rest => let '(r, w1) := g v w in fill g rest (<[k := r]> acc) w1
  end.

(** One metric, by the shape of its table entry (lines 137-144). *)
Definition gen_value (c : config) (r : rule) (w : world) : value * world :=
  match r with
  | GroupRange fields =>
      let '(g, w1) := fill (jittered c) fields ∅ w in (VGroup g, w1)
  | Categorical o os => let '(s, w1) := choice o os w in (VStr s, w1)
  | Boolean o os => let '(b, w1) := choice o os w in (VBool b, w1)
  | ScalarRange lo hi => let '(x, w1) := jittered c (lo, hi) w in (VNum x, w1)
  end.

(** Lines 135-144. *)
Definition gen_metrics (c : config) (ranges : list (string * rule)) (w : world)
    : gmap string value * world :=
  fill (gen_value c) ranges ∅ w.

(** [metrics[k] += d] *)
Definition add_to (k : string) (d : Q) (metrics : gmap string value)
    : exn + gmap string value :=
  match metrics !! k with
  | None => inl (KeyError (Some k))
  | Some (VNum x) => inr (<[k := VNum (x + d)%Q]> metrics)
  | Some _ => inl TypeError
  end.

(** The body of the fault branch (lines 148-159): new metrics and status. *)
Definition fault_mutation (typ : type_name) (metrics : gmap string value)
    : exn + (gmap string value * string) :=
  match typ with
  | vehicle =>
      match add_to "engine_temp" 50 metrics with
      | inr m => inr (m, "fault_overheat")
      | inl e => inl e
      end
  | fixed =>
      inr (<["operational_status" := VStr "jammed"]> metrics, "fault_jam")
  | env =>
      match add_to "methane" 10 metrics with
      | inr m => inr (m, "fault_gas")
      | inl e => inl e
      end
  | personnel_t =>
      inr (<["fall_detection" := VBool true]> metrics, "fault_fall")
  end.

(** Lines 146-159: [mode == 'fault' and random.random() < 0.2] draws only
    when the mode is [fault]. *)
Definition inject_fault (typ : type_name) (mode : string)
    (metrics : gmap string value) (w : world)
    : (exn + (gmap string value * string)) * world :=
  if decide (mode = "fault") then
    let '(u, w1) := random_random w in
    if Qltb u 0.2 then (fault_mutation typ metrics, w1)
    else (inr (metrics, "normal"), w1)
  else (inr (metrics, "normal"), w).

(** [simulate_data] up to the construction of [payload] (lines 130-168).
    When [get_device_type] returned [None], the lookup [metric_ranges[typ]]
    of line 135 raises [KeyError]. *)
Definition simulate_payload (c : config) (device_id mode : string) (w : world)
    : (exn + payload) * world :=
  match get_device_type device_id with
  | None => (inl (KeyError None), w)
  | Some typ =>
      let '(metrics, w1) := gen_metrics c (metric_ranges typ) w in
      let '(r, w2) := inject_fault typ mode metrics w1 in
      match r with
      | inl e => (inl e, w2)
      | inr (metrics', status) =>
          let '(now, w3) := utcnow_isoformat w2 in
          (inr (Payload device_id typ (now +:+ "Z") metrics' status), w3)
      end
  end.

(** The metrics of lines 135-144 for a device of type [t], and the draw of
    line 147 that follows them. *)
Definition generated_metrics (c : config) (t : type_name) (w : world)
    : gmap string value :=
  (gen_metrics c (metric_ranges t) w).1.

Definition fault_draw (c : config) (t : type_name) (w : world) : Q :=
  (random_random (gen_metrics c (metric_ranges t) w).2).1.

(** [simulate_data] (lines 128-169). *)
Definition simulate_data (c : config) (device_id mode : string) (w : world)
    : (exn + string) * world :=
  let '(r, w1) := simulate_payload c device_id mode w in
  match r with
  | inl e => (inl e, w1)
  | inr p => (inr (json_dumps p), w1)
  end.

End Generator.

(** ** Start-up (lines 49-82 and 191-196) *)

(** Truth value of a configuration entry that is [None] or a string. *)
Definition truthy (o : option string) : bool :=
  match o with
  | Some (String _ _) => true
  | _ => false
  end.

Definition modes : list string := ["normal"; "fault"; "intermittent"].

(** Lines 49-50. *)
Definition validate_mode (c : config) : exn + unit :=
  if decide (mode c ∈ modes) then inr tt
  else inl (ValueError "Mode must be 'normal', 'fault', or 'intermittent'").

(** What [client.connect] is called with, and the TLS material set before. *)
Record connection := Connection {
  endpoint : string;
  conn_port : Z;
  tls : option (option string * option string * option string)
}.

(** Lines 56-69. *)
Definition configure_client (c : config) : exn + connection :=
  if String.eqb (broker c) "aws" && truthy (aws_endpoint c) then
    if negb (truthy (cert c) && truthy (key c) && truthy (ca c)) then
      inl (ValueError "AWS IoT requires cert, key, and CA paths")
    else
      inr (Connection (default "" (aws_endpoint c)) 8883
             (Some (ca c, cert c, key c)))
  else inr (Connection (broker c) (port c) None).

(** The module body up to the start of the threads: the connection made and
    the arguments [(device, config['mode'])] of each [publish_loop] thread,
    or the exception that ends the process.  The calls into the MQTT
    client, [client.tls_set] and [client.connect], are taken to succeed, and
    the entries of the configuration to have the types of [config]. *)
Definition startup (c : config) : exn + (connection * list (string * string)) :=
  match validate_mode c with
  | inl e => inl e
  | inr _ =>
      match configure_client c with
      | inl e => inl e
      | inr conn => inr (conn, (λ d, (d, mode c)) <$> all_devices c)
      end
  end.

(** ** The publish loop (lines 172-188) as a machine

    One step executes one statement of [publish_loop]; the control point
    carries the local [data] and, inside the [for] loop of line 181, the
    items still to be visited.  [time.sleep] raises [ValueError] for a
    negative length: the outage wait of line 179 is at least 10, but the
    tick wait of line 188 takes [config['frequency']], which nothing
    validates.  An exception ends the thread ([Raised]). *)

Inductive event :=
  | Publish (topic : string) (data : string) (qos : Z)
  | Sleep (seconds : Z).

Inductive control :=
  | AtSimulate                                   (* line 176 *)
  | AtBranch (data : string)                     (* line 177 *)
  | AtAppend (data : string)                     (* line 178 *)
  | AtOutageSleep (data : string)                (* line 179 *)
  | AtFlush (data : string) (pending : list string)  (* lines 181-182 *)
  | AtClear (data : string)                      (* line 183 *)
  | AtPublish (data : string)                    (* line 186 *)
  | AtWait (data : string)                       (* line 188 *)
  | Raised (e : exn).

Section PublishLoop.
Context `{RT : Runtime}.

Record loop_state := LoopState {
  ctl : control;
  buffer : list string;
  trace : list event;
  rt : world
}.

Definition topic_of (device_id : string) : string := "mining/" +:+ device_id.

Definition publish_step (c : config) (device_id mode : string) (s : loop_state)
    : loop_state :=
  match ctl s with
  | AtSimulate =>
      let '(r, w1) := simulate_data c device_id mode (rt s) in
      match r with
      | inl e => LoopState (Raised e) (buffer s) (trace s) w1
      | inr data => LoopState (AtBranch data) (buffer s) (trace s) w1
      end
  | AtBranch data =>
      if decide (mode = "intermittent") then
        let '(u, w1) := random_random (rt s) in
        if Qltb u 0.3 then LoopState (AtAppend data) (buffer s) (trace s) w1
        else LoopState (AtPublish data) (buffer s) (trace s) w1
      else LoopState (AtPublish data) (buffer s) (trace s) (rt s)
  | AtAppend data =>
      LoopState (AtOutageSleep data) (buffer s ++ [data]) (trace s) (rt s)
  | AtOutageSleep data =>
      let '(d, w1) := randint 10 30 (rt s) in
      LoopState (AtFlush data (buffer s)) (buffer s) (trace s ++ [Sleep d]) w1
  | AtFlush data (buffered_data :: pending) =>
      LoopState (AtFlush data pending) (buffer s)
        (trace s ++ [Publish (topic_of device_id) buffered_data 1]) (rt s)
  | AtFlush data [] =>
      LoopState (AtClear data) (buffer s) (trace s) (rt s)
  | AtClear data =>
      LoopState (AtWait data) [] (trace s) (rt s)
  | AtPublish data =>
      LoopState (AtWait data) (buffer s)
        (trace s ++ [Publish (topic_of device_id) data 1]) (rt s)
  | AtWait data =>
      if decide (frequency c < 0) then
        LoopState (Raised (ValueError "sleep length must be non-negative"))
          (buffer s) (trace s) (rt s)
      else
        LoopState AtSimulate (buffer s) (trace s ++ [Sleep (frequency c)]) (rt s)
  | Raised e => s
  end.

(** Entering [publish_loop]: [buffer = []], nothing published yet. *)
Definition enter (w : world) : loop_state := LoopState AtSimulate [] [] w.

Definition publish_loop (c : config) (device_id mode : string) (n : nat)
    (s : loop_state) : loop_state :=
  Nat.iter n (publish_step c device_id mode) s.

(** The states a device thread goes through. *)
Definition reachable (c : config) (device_id mode : string) (s : loop_state)
    : Prop :=
  ∃ n w, s = publish_loop c device_id mode n (enter w).

(** What the buffer holds at each control point of a loop entered with an
    empty buffer. *)
Definition loop_inv (s : loop_state) : Prop :=
  match ctl s with
  | AtOutageSleep data | AtClear data => buffer s = [data]
  | AtFlush data pending => buffer s = [data] ∧ (pending = [data] ∨ pending = [])
  | _ => buffer s = []
  end.

End PublishLoop.

(** ** Vocabulary of the statements *)

(** A draw of [random.random()]. *)
Definition unit_draw (u : Q) : Prop := (0 <= u ∧ u < 1)%Q.

(** [x] is a uniform draw from the range [r] multiplied by the jitter factor
    [1 + U(-variance, variance)]. *)
Definition jitter_of (c : config) (r : Q * Q) (x : Q) : Prop :=
  ∃ u1 u2, unit_draw u1 ∧ unit_draw u2 ∧
    x = ((r.1 + (r.2 - r.1) * u1)
         * (1 + (- variance c + (variance c - - variance c) * u2)))%Q.

(** How a value was produced from its rule: jitter on every numeric draw,
    a plain choice for categorical and boolean rules. *)
Definition drawn_by (c : config) (r : rule) (v : value) : Prop :=
  match r with
  | ScalarRange lo hi => ∃ x, v = VNum x ∧ jitter_of c (lo, hi) x
  | GroupRange fields =>
      ∃ g, v = VGroup g ∧
        (∀ k, k ∉ fields.*1 → g !! k = None) ∧
        ∀ k r', (k, r') ∈ fields → ∃ x, g !! k = Some x ∧ jitter_of c r' x
  | Categorical o os => ∃ s, v = VStr s ∧ s ∈ o :: os
  | Boolean o os => ∃ b, v = VBool b ∧ b ∈ o :: os
  end.

(** The value lies in the range, or is a member of the option set, that the
    rule declares. *)
Definition in_declared (r : rule) (v : value) : Prop :=
  match r, v with
  | ScalarRange lo hi, VNum x => (lo <= x ∧ x <= hi)%Q
  | GroupRange fields, VGroup g =>
      ∀ k r', (k, r') ∈ fields → ∃ x, g !! k = Some x ∧ (r'.1 <= x ∧ x <= r'.2)%Q
  | Categorical o os, VStr s => s ∈ o :: os
  | Boolean o os, VBool b => b ∈ o :: os
  | _, _ => False
  end.

(** Ranges are ordered and field names are distinct. *)
Definition rule_ok (r : rule) : bool :=
  match r with
  | ScalarRange lo hi => Qle_bool lo hi
  | GroupRange fields =>
      forallb (λ f, Qle_bool f.2.1 f.2.2) fields && bool_decide (NoDup fields.*1)
  | _ => true
  end.

(** The fault table of the sample generator: the metric a fault touches,
    the status it reports and its effect on the metrics. *)
Definition fault_key (t : type_name) : string :=
  match t with
  | vehicle => "engine_temp"
  | fixed => "operational_status"
  | env => "methane"
  | personnel_t => "fall_detection"
  end.

Definition fault_status (t : type_name) : string :=
  match t with
  | vehicle => "fault_overheat"
  | fixed => "fault_jam"
  | env => "fault_gas"
  | personnel_t => "fault_fall"
  end.

Definition fault_effect (t : type_name) (m m' : gmap string value) : Prop :=
  match t with
  | vehicle =>
      ∃ x, m !! "engine_temp" = Some (VNum x)
           ∧ m' = <["engine_temp" := VNum (x + 50)%Q]> m
  | fixed => m' = <["operational_status" := VStr "jammed"]> m
  | env =>
      ∃ x, m !! "methane" = Some (VNum x)
           ∧ m' = <["methane" := VNum (x + 10)%Q]> m
  | personnel_t => m' = <["fall_detection" := VBool true]> m
  end.

(** Registry categories: prefix, subtype tokens, configured count, block
    size of the comprehension and the list built. *)
Definition category_prefix (t : type_name) : string :=
  match t with env => "env_" | _ => "" end.

Definition category_tokens (t : type_name) : list string :=
  match t with
  | vehicle => vehicle_tokens
  | fixed => fixed_tokens
  | env => env_tokens
  | personnel_t => ["personnel"]
  end.

Definition category_count (c : config) (t : type_name) : Z :=
  match t with
  | vehicle => num_vehicles c
  | fixed => num_fixed_assets c
  | env => num_env_sensors c
  | personnel_t => num_personnel c
  end.

Definition category_block (c : config) (t : type_name) : Z :=
  match t with
  | vehicle => num_vehicles c / 3 + 1
  | fixed => num_fixed_assets c / 3 + 1
  | env => num_env_sensors c / 5 + 1
  | personnel_t => num_personnel c
  end.

Definition category_ids (c : config) (t : type_name) : list string :=
  match t with
  | vehicle => vehicles c
  | fixed => fixed_assets c
  | env => env_sensors c
  | personnel_t => personnel c
  end.

(** [f"{pre}{typ}_{i:03d}"] *)
Definition make_id (pre typ : string) (i : Z) : string :=
  pre +:+ typ +:+ "_" +:+ format_03d i.

(** Tokens of one category never produce the same identifier. *)
Definition separable (pre : string) (toks : list string) : Prop :=
  ∀ t1 t2 s1 s2, t1 ∈ toks → t2 ∈ toks →
    pre +:+ t1 +:+ "_" +:+ s1 = pre +:+ t2 +:+ "_" +:+ s2 → t1 = t2 ∧ s1 = s2.

(** Number of identifiers of [ids] that carry the subtype token [typ]. *)
Definition subtype_count (pre typ : string) (ids : list string) : nat :=
  length (List.filter (starts_with (pre +:+ typ +:+ "_")) ids).

(** No category token occurs in the identifier. *)
Definition no_token (device_id : string) : Prop :=
  ∀ tok, tok ∈ ["truck"; "loader"; "excavator"; "fan"; "vent"; "conveyor";
                "env"; "personnel"] → contains tok device_id = false.

(** ** A concrete runtime: draws read from a tape

    Each tape entry [n] gives the draw [(n mod 1000) / 1000] of
    [random.random()] or [n mod k] of [_randbelow(k)]; an exhausted tape
    gives 0.  The clock is constant and [json.dumps] is reduced to the
    identifier and the status. *)

Definition tape_random (w : list nat) : Q * list nat :=
  match w with
  | [] => (0%Q, [])
  | n :: w' => (Z.of_nat (n mod 1000) # 1000, w')
  end.

Definition tape_below (k : nat) (w : list nat) : nat * list nat :=
  match w with
  | [] => (0%nat, [])
  | n :: w' => ((n mod k)%nat, w')
  end.

Program Definition tape_runtime : Runtime := {|
  world := list nat;
  random_random := tape_random;
  randbelow := tape_below;
  utcnow_isoformat := λ w, ("2024-01-01T00:00:00", w);
  json_dumps := λ p, p_device_id p +:+ " " +:+ p_status p
|}.
Next Obligation.
  intros w. destruct w as [|n w]; simpl; [done|].
  pose proof (Nat.mod_upper_bound n 1000 ltac:(done)).
  unfold Qle, Qlt; simpl. lia.
Qed.
Next Obligation.
  intros k w Hk. destruct w as [|n w]; simpl; [done|].
  apply Nat.mod_upper_bound. lia.
Qed.

(** Configurations used as examples: the defaults with one entry changed. *)
Definition with_counts (v f e p : Z) (c : config) : config :=
  Config v f e p (frequency c) (variance c) (seed c) (mode c) (broker c)
    (port c) (aws_endpoint c) (cert c) (key c) (ca c).

Definition with_mode (m : string) (c : config) : config :=
  Config (num_vehicles c) (num_fixed_assets c) (num_env_sensors c)
    (num_personnel c) (frequency c) (variance c) (seed c) m (broker c)
    (port c) (aws_endpoint c) (cert c) (key c) (ca c).

Definition with_variance (v : Q) (c : config) : config :=
  Config (num_vehicles c) (num_fixed_assets c) (num_env_sensors c)
    (num_personnel c) (frequency c) v (seed c) (mode c) (broker c)
    (port c) (aws_endpoint c) (cert c) (key c) (ca c).


(** ** Configuration file (lines 16-46)

    [json.load] is library code: the file named on the command line is
    either missing or holds a JSON object, whose entries are then a
    dictionary.  (Files that are not a JSON object are outside the model;
    arrays and objects as entry values, which the script never reads, are
    one opaque value.) *)

Inductive jvalue :=
  | JNull
  | JBool (b : bool)
  | JInt (n : Z)
  | JFloat (x : Q)
  | JStr (s : string)
  | JComposite.

Inductive file_state :=
  | FileNotFound
  | FileObject (entries : gmap string jvalue).

(** The literal [default_config] of [load_config] (lines 18-33). *)
Definition default_entries : list (string * jvalue) :=
  [ ("num_vehicles", JInt 5);
    ("num_fixed_assets", JInt 10);
    ("num_env_sensors", JInt 20);
    ("num_personnel", JInt 15);
    ("frequency", JInt 10);
    ("variance", JFloat 0.1);
    ("seed", JInt 42);
    ("mode", JStr "normal");
    ("broker", JStr "localhost");
    ("port", JInt 1883);
    ("aws_endpoint", JNull);
    ("cert", JNull);
    ("key", JNull);
    ("ca", JNull) ].

Definition default_dict : gmap string jvalue := list_to_map default_entries.

(** [load_config]: the dictionary returned and the lines printed.
    [default_config.update(config)] lets the entries of the file win. *)
Definition load_config (fs : string → file_state) (config_file : string)
    : gmap string jvalue * list string :=
  match fs config_file with
  | FileObject entries => (entries ∪ default_dict, [])
  | FileNotFound =>
      (default_dict,
       ["Config file " +:+ config_file +:+ " not found, using defaults"])
  end.

(** The entries the script reads ([config['mode']] and so on), at the types
    it uses them with. *)
Definition as_int (v : option jvalue) : option Z :=
  match v with Some (JInt n) => Some n | _ => None end.

Definition as_number (v : option jvalue) : option Q :=
  match v with
  | Some (JInt n) => Some (inject_Z n)
  | Some (JFloat x) => Some x
  | _ => None
  end.

Definition as_str (v : option jvalue) : option string :=
  match v with Some (JStr s) => Some s | _ => None end.

Definition as_path (v : option jvalue) : option (option string) :=
  match v with
  | Some JNull => Some None
  | Some (JStr s) => Some (Some s)
  | _ => None
  end.

Definition read_config (d : gmap string jvalue) : option config :=
  nv ← as_int (d !! "num_vehicles");
  nf ← as_int (d !! "num_fixed_assets");
  ne ← as_int (d !! "num_env_sensors");
  np ← as_int (d !! "num_personnel");
  fr ← as_int (d !! "frequency");
  va ← as_number (d !! "variance");
  se ← as_int (d !! "seed");
  mo ← as_str (d !! "mode");
  br ← as_str (d !! "broker");
  po ← as_int (d !! "port");
  ae ← as_path (d !! "aws_endpoint");
  ce ← as_path (d !! "cert");
  ke ← as_path (d !! "key");
  ca' ← as_path (d !! "ca");
  Some (Config nv nf ne np fr va se mo br po ae ce ke ca').

(** ** Further vocabulary *)

(** [sub] occurs in [s]. *)
Definition substring (sub s : string) : Prop :=
  ∃ before after, s = before +:+ sub +:+ after.

(** The prefix test tells the tokens of a category apart. *)
Definition prefix_test (pre : string) (toks : list string) : Prop :=
  ∀ t1 t2 s, t1 ∈ toks → t2 ∈ toks →
    starts_with (pre +:+ t1 +:+ "_") (pre +:+ t2 +:+ "_" +:+ s)
    = bool_decide (t1 = t2).

(** The control points outside the outage branch, and the tick wait as the
    only sleep. *)
Definition direct_control (k : control) : Prop :=
  match k with
  | AtAppend _ | AtOutageSleep _ | AtFlush _ _ | AtClear _ => False
  | _ => True
  end.

Definition tick_only (c : config) (e : event) : Prop :=
  match e with
  | Sleep secs => secs = frequency c
  | Publish _ _ _ => True
  end.

(** The events a device thread may emit: a publication on its own topic
    with QoS 1, the tick wait, or an outage wait of 10 to 30 seconds. *)
Definition event_ok (c : config) (device_id : string) (e : event) : Prop :=
  match e with
  | Publish topic _ qos => topic = "mining/" +:+ device_id ∧ qos = 1
  | Sleep secs => secs = frequency c ∨ 10 ≤ secs ≤ 30
  end.

(** The payloads published in a trace, in order. *)
Definition publications (t : list event) : list string :=
  omap (λ e, match e with Publish _ data _ => Some data | Sleep _ => None end) t.

(** ** Where each metric takes its draws

    The metric rules written out against the runtime: which calls of
    [random.random] and [_randbelow] a metric consumes, counted from the
    state in which [simulate_data] is entered, and the value they give. *)

Section DrawPositions.
Context `{RT : Runtime}.

(** The runtime after two calls of [random.random]. *)
Definition after_two_draws (w : world) : world :=
  (random_random (random_random w).2).2.

(** A numeric draw in state [w]: the first call of [random.random] places
    the value in the range, the second gives the jitter factor
    [1 + U(-variance, variance)] it is multiplied by. *)
Definition jitter_value (c : config) (r : Q * Q) (w : world) : Q :=
  ((r.1 + (r.2 - r.1) * (random_random w).1)
   * (1 + (- variance c
           + (variance c - - variance c)
             * (random_random (random_random w).2).1)))%Q.

(** The runtime in which the entry [k] of [items] is produced, each earlier
    entry having moved it on by [advance]. *)
Fixpoint state_at {V} (advance : V → world → world)
    (items : list (string * V)) (k : string) (w : world) : world :=
  match items with
  | [] => w
  | (k', v) :: rest =>
      if decide (k' = k) then w else state_at advance rest k (advance v w)
  end.

(** The draws a rule consumes: two calls of [random.random] for a number
    and for each field of a group, one call of [_randbelow] for a choice. *)
Definition after_rule (r : rule) (w : world) : world :=
  match r with
  | ScalarRange _ _ => after_two_draws w
  | GroupRange fields => fold_left (λ w' _, after_two_draws w') fields w
  | Categorical o os => (randbelow (length (o :: os)) w).2
  | Boolean o os => (randbelow (length (o :: os)) w).2
  end.

(** The value of a metric with rule [r] produced in state [w]: the jittered
    draw for a number and for every field of a group (and no other field),
    the option picked by [_randbelow], untouched, for a choice. *)
Definition rule_value (c : config) (r : rule) (w : world) (v : value) : Prop :=
  match r with
  | ScalarRange lo hi => v = VNum (jitter_value c (lo, hi) w)
  | GroupRange fields =>
      ∃ g, v = VGroup g
        ∧ (∀ f, f ∉ fields.*1 → g !! f = None)
        ∧ ∀ f r', (f, r') ∈ fields →
            g !! f
            = Some (jitter_value c r'
                      (state_at (λ _, after_two_draws) fields f w))
  | Categorical o os =>
      v = VStr (nth (randbelow (length (o :: os)) w).1 (o :: os) o)
  | Boolean o os =>
      v = VBool (nth (randbelow (length (o :: os)) w).1 (o :: os) o)
  end.

End DrawPositions.

(** * Properties *)

(** Membership in a list given by its elements, and closed decidable
    facts. *)
Ltac in_list :=
  repeat first [apply list_elem_of_here | apply list_elem_of_further].

Ltac decide_it := apply (bool_decide_unpack _); vm_compute; exact I.

(** ** Strings *)

Module PyStrFacts.

Lemma starts_with_app p s : starts_with p (p +:+ s) = true.
Proof.
  induction p as [|a p IH]; simpl; [done|].
  by rewrite Ascii.eqb_refl.
Qed.

Lemma contains_here sub s : starts_with sub s = true → contains sub s = true.
Proof. intros H. destruct s; simpl; by rewrite H. Qed.

Lemma contains_later sub a s : contains sub s = true → contains sub (String a s) = true.
Proof.
  intros H. change (contains sub (String a s))
    with (if starts_with sub (String a s) then true else contains sub s).
  rewrite H. by destruct (starts_with _ _).
Qed.

(** A string made of digits contains no word that starts with a letter. *)
Lemma contains_all_digits c sub s :
  is_digit c = false → all_digits s = true → contains (String c sub) s = false.
Proof.
  intros Hc. induction s as [|a s IH]; simpl; [done|].
  intros [Ha Hs]%andb_prop.
  destruct (Ascii.eqb c a) eqn:E; [|by apply IH].
  apply Ascii.eqb_eq in E. congruence.
Qed.

Lemma all_digits_app s t :
  all_digits s = true → all_digits t = true → all_digits (s +:+ t) = true.
Proof.
  induction s as [|a s IH]; simpl; [done|].
  intros [-> Hs]%andb_prop Ht. simpl. by apply IH.
Qed.

Lemma all_digits_zeros n : all_digits (zeros n) = true.
Proof. induction n; simpl; done. Qed.

Lemma all_digits_uint d : all_digits (NilEmpty.string_of_uint d) = true.
Proof. induction d; simpl; done. Qed.

Lemma all_digits_format i : 0 ≤ i → all_digits (format_03d i) = true.
Proof.
  intros Hi. unfold format_03d. destruct (decide (i < 0)); [lia|].
  apply all_digits_app; [apply all_digits_zeros | apply all_digits_uint].
Qed.

Lemma uint_of_zeros n s :
  NilEmpty.uint_of_string (zeros n +:+ s)
  = Nat.iter n (option_map Decimal.D0) (NilEmpty.uint_of_string s).
Proof. induction n as [|n IH]; simpl; [done|]. by rewrite IH. Qed.

Lemma of_uint_zeros n o :
  N.of_uint <$> Nat.iter n (option_map Decimal.D0) o = N.of_uint <$> o.
Proof.
  induction n as [|n IH]; simpl; [done|].
  rewrite <- IH. by destruct (Nat.iter n _ o).
Qed.

(** [{i:03d}] can be read back: the padding does not change the number. *)
Lemma parse_format i : 0 ≤ i → parse_dec (format_03d i) = Some (Z.to_N i).
Proof.
  intros Hi. unfold format_03d, parse_dec, zfill, digits.
  destruct (decide (i < 0)); [lia|].
  rewrite uint_of_zeros, of_uint_zeros, NilEmpty.usu. simpl.
  by rewrite DecimalN.Unsigned.of_to.
Qed.

Lemma format_inj i j : 0 ≤ i → 0 ≤ j → format_03d i = format_03d j → i = j.
Proof.
  intros Hi Hj E. apply (f_equal parse_dec) in E.
  rewrite !parse_format in E by done. injection E. lia.
Qed.

Lemma app_inj_prefix p s t : p +:+ s = p +:+ t → s = t.
Proof. induction p as [|a p IH]; simpl; [done|]. intros [= E]. auto. Qed.

End PyStrFacts.
Import PyStrFacts.

(** ** Device registry *)

Module Registry.

Lemma slice_to_nonneg {A} (l : list A) n : 0 ≤ n → slice_to l n = take (Z.to_nat n) l.
Proof. intros. unfold slice_to. destruct (decide (n < 0)); [lia | done]. Qed.

Lemma slice_to_nil {A} n : slice_to (@nil A) n = [].
Proof. unfold slice_to. destruct (decide _); by rewrite take_nil. Qed.

Lemma slice_to_elem {A} (l : list A) n x : x ∈ slice_to l n → x ∈ l.
Proof.
  unfold slice_to. destruct (decide _); intros (i & H & _)%elem_of_take;
    by eapply list_elem_of_lookup_2.
Qed.

Lemma slice_to_NoDup {A} (l : list A) n : NoDup l → NoDup (slice_to l n).
Proof.
  intros H. unfold slice_to.
  destruct (decide _); eapply sublist_NoDup; eauto using sublist_take.
Qed.

Lemma id_grid_cons pre typ toks m :
  id_grid pre (typ :: toks) m = (make_id pre typ <$> seqZ 0 m) ++ id_grid pre toks m.
Proof.
  unfold id_grid. rewrite bind_cons. f_equal.
Qed.

Lemma id_grid_empty pre toks m : m ≤ 0 → id_grid pre toks m = [].
Proof.
  intros Hm. induction toks as [|typ toks IH]; [done|].
  rewrite id_grid_cons, IH, seqZ_nil by done. done.
Qed.

Lemma length_id_grid pre toks m :
  length (id_grid pre toks m) = (length toks * Z.to_nat m)%nat.
Proof.
  induction toks as [|typ toks IH]; [done|].
  rewrite id_grid_cons, length_app, length_fmap, length_seqZ, IH. simpl. lia.
Qed.

Lemma elem_of_id_grid pre toks m x :
  x ∈ id_grid pre toks m ↔
  ∃ typ i, typ ∈ toks ∧ 0 ≤ i < m ∧ x = make_id pre typ i.
Proof.
  induction toks as [|typ toks IH].
  - split; [by intros ?%elem_of_nil | by intros (? & ? & ?%elem_of_nil & _)].
  - rewrite id_grid_cons, elem_of_app, list_elem_of_fmap, IH. split.
    + intros [(i & -> & Hi%elem_of_seqZ) | (t & i & Ht & Hi & ->)].
      * exists typ, i. split_and!; [left | lia.. | done].
      * exists t, i. split_and!; [by right | lia.. | done].
    + intros (t & i & Ht & Hi & ->). apply elem_of_cons in Ht as [-> | Ht].
      * left. exists i. split; [done|]. apply elem_of_seqZ. lia.
      * right. eauto 6.
Qed.

(** The grid is laid out token by token: block [j] holds the indices
    [0 .. m-1] of the [j]-th token. *)
Lemma lookup_id_grid pre toks m j typ i :
  toks !! j = Some typ → 0 ≤ i < m →
  id_grid pre toks m !! (j * Z.to_nat m + Z.to_nat i)%nat = Some (make_id pre typ i).
Proof.
  intros Hj Hi. revert j Hj.
  induction toks as [|t toks IH]; intros j Hj; [done|].
  rewrite id_grid_cons. destruct j as [|j]; simpl in Hj.
  - injection Hj as ->. rewrite lookup_app_l by (rewrite length_fmap, length_seqZ; lia).
    rewrite list_lookup_fmap, lookup_seqZ_lt by lia. simpl. do 2 f_equal. lia.
  - rewrite lookup_app_r by (rewrite length_fmap, length_seqZ; lia).
    rewrite length_fmap, length_seqZ.
    replace (S j * Z.to_nat m + Z.to_nat i - Z.to_nat m)%nat
      with (j * Z.to_nat m + Z.to_nat i)%nat by lia.
    by apply IH.
Qed.

Ltac separate :=
  intros t1 t2 s1 s2 H1 H2;
  repeat (apply elem_of_cons in H1 as [-> | H1]); [..| by apply elem_of_nil in H1];
  (repeat (apply elem_of_cons in H2 as [-> | H2]); [..| by apply elem_of_nil in H2]);
  simpl; intros E; first [discriminate E | by simplify_eq].

Lemma separable_vehicle : separable "" vehicle_tokens.
Proof. separate. Qed.

Lemma separable_fixed : separable "" fixed_tokens.
Proof. separate. Qed.

Lemma separable_env : separable "env_" env_tokens.
Proof. separate. Qed.

Lemma NoDup_id_grid pre toks m :
  separable pre toks → NoDup toks → NoDup (id_grid pre toks m).
Proof.
  intros Hsep Htoks. unfold id_grid. apply NoDup_bind; [| |done].
  - intros t1 t2 x H1 H2 (i1 & ->%list_elem_of_singleton & _)%list_elem_of_bind
      (i2 & Hx%list_elem_of_singleton & _)%list_elem_of_bind.
    by destruct (Hsep t1 t2 _ _ H1 H2 Hx).
  - intros t Ht. apply NoDup_bind; [| |apply NoDup_seqZ].
    + intros i1 i2 x Hi1%elem_of_seqZ Hi2%elem_of_seqZ ->%list_elem_of_singleton
        Hx%list_elem_of_singleton.
      destruct (Hsep t t _ _ Ht Ht Hx) as [_ E]. apply format_inj in E; lia.
    + intros. apply NoDup_singleton.
Qed.

End Registry.
Import Registry.

(** ** Type resolution on registry identifiers *)

Module Resolve.

Ltac by_cases H :=
  repeat (apply elem_of_cons in H as [-> | H]); [..| by apply elem_of_nil in H].

Ltac resolve :=
  unfold get_device_type; cbv [String.append String.app]; cbn;
  repeat (rewrite contains_all_digits by done; cbn); done.

Lemma resolve_vehicle typ s :
  typ ∈ vehicle_tokens → all_digits s = true →
  get_device_type ("" +:+ typ +:+ "_" +:+ s) = Some vehicle.
Proof. intros H Hs. by_cases H; resolve. Qed.

Lemma resolve_fixed typ s :
  typ ∈ fixed_tokens → all_digits s = true →
  get_device_type ("" +:+ typ +:+ "_" +:+ s) = Some fixed.
Proof. intros H Hs. by_cases H; resolve. Qed.

Lemma resolve_env typ s :
  typ ∈ env_tokens → all_digits s = true →
  get_device_type ("env_" +:+ typ +:+ "_" +:+ s) = Some env.
Proof. intros H Hs. by_cases H; resolve. Qed.

Lemma resolve_personnel s :
  all_digits s = true → get_device_type ("personnel_" +:+ s) = Some personnel_t.
Proof. intros Hs. resolve. Qed.

Lemma vehicles_type c d : d ∈ vehicles c → get_device_type d = Some vehicle.
Proof.
  intros (typ & i & Ht & Hi & ->)%slice_to_elem%elem_of_id_grid.
  apply resolve_vehicle; [done | apply all_digits_format; lia].
Qed.

Lemma fixed_assets_type c d : d ∈ fixed_assets c → get_device_type d = Some fixed.
Proof.
  intros (typ & i & Ht & Hi & ->)%slice_to_elem%elem_of_id_grid.
  apply resolve_fixed; [done | apply all_digits_format; lia].
Qed.

Lemma env_sensors_type c d : d ∈ env_sensors c → get_device_type d = Some env.
Proof.
  intros (typ & i & Ht & Hi & ->)%slice_to_elem%elem_of_id_grid.
  apply resolve_env; [done | apply all_digits_format; lia].
Qed.

Lemma personnel_type c d : d ∈ personnel c → get_device_type d = Some personnel_t.
Proof.
  intros (i & ->%list_elem_of_singleton & Hi%elem_of_seqZ)%list_elem_of_bind.
  apply resolve_personnel, all_digits_format. lia.
Qed.

Lemma all_devices_category c d :
  d ∈ all_devices c ↔ ∃ t, d ∈ category_ids c t.
Proof.
  unfold all_devices. rewrite !elem_of_app. split.
  - intros [H | [H | [H | H]]];
      [by exists vehicle | by exists fixed | by exists env | by exists personnel_t].
  - intros [[] H]; simpl in H; auto.
Qed.

Lemma category_ids_type c d t : d ∈ category_ids c t → get_device_type d = Some t.
Proof.
  destruct t; simpl;
    eauto using vehicles_type, fixed_assets_type, env_sensors_type, personnel_type.
Qed.

Lemma all_devices_type c d : d ∈ all_devices c → is_Some (get_device_type d).
Proof. intros [t Ht%category_ids_type]%all_devices_category. eauto. Qed.

Lemma category_ids_NoDup c t : NoDup (category_ids c t).
Proof.
  destruct t; cbn [category_ids];
    unfold vehicles, fixed_assets, env_sensors, personnel.
  - apply slice_to_NoDup, NoDup_id_grid; [apply separable_vehicle | decide_it].
  - apply slice_to_NoDup, NoDup_id_grid; [apply separable_fixed | decide_it].
  - apply slice_to_NoDup, NoDup_id_grid; [apply separable_env | decide_it].
  - apply NoDup_bind; [| intros; apply NoDup_singleton | apply NoDup_seqZ].
    intros i1 i2 x Hi1%elem_of_seqZ Hi2%elem_of_seqZ ->%list_elem_of_singleton
      Hx%list_elem_of_singleton.
    apply (app_inj_prefix "personnel_"), format_inj in Hx; lia.
Qed.

(** The whole registry has no duplicate: categories are told apart by the
    type their identifiers resolve to. *)
Lemma all_devices_NoDup c : NoDup (all_devices c).
Proof.
  unfold all_devices. rewrite !NoDup_app. split_and!.
  - apply (category_ids_NoDup c vehicle).
  - intros x Hx%vehicles_type. rewrite !elem_of_app.
    intros [Hy%fixed_assets_type | [Hy%env_sensors_type | Hy%personnel_type]];
      congruence.
  - apply (category_ids_NoDup c fixed).
  - intros x Hx%fixed_assets_type. rewrite !elem_of_app.
    intros [Hy%env_sensors_type | Hy%personnel_type]; congruence.
  - apply (category_ids_NoDup c env).
  - intros x Hx%env_sensors_type Hy%personnel_type. congruence.
  - apply (category_ids_NoDup c personnel_t).
Qed.

Example vehicles_five :
  vehicles default_config
  = ["haul_truck_000"; "haul_truck_001"; "loader_000"; "loader_001";
     "excavator_000"]
  ∧ subtype_count "" "haul_truck" (vehicles default_config) = 2%nat
  ∧ subtype_count "" "loader" (vehicles default_config) = 2%nat
  ∧ subtype_count "" "excavator" (vehicles default_config) = 1%nat.
Proof. by vm_compute. Qed.

Example env_sensors_twenty_one :
  env_sensors (with_counts 5 10 21 15 default_config) !! 20%nat
  = Some "env_ground_stab_000".
Proof. by vm_compute. Qed.

Example format_wide : format_03d 7 = "007" ∧ format_03d 1234 = "1234".
Proof. by vm_compute. Qed.

End Resolve.
Import Resolve.

(** ** Sample generator *)

Section GeneratorFacts.
Context `{RT : Runtime}.

Lemma fill_other {V R} (g : V → world → R * world) items acc w k :
  k ∉ items.*1 → (fill g items acc w).1 !! k = acc !! k.
Proof.
  revert acc w. induction items as [|[k' v] items IH]; intros acc w Hk; [done|].
  simpl in *. apply not_elem_of_cons in Hk as [Hne Hk].
  destruct (g v w) as [r w1]. rewrite IH by done. by rewrite lookup_insert_ne.
Qed.

(** Every item of the table gets an entry, produced by the generator from
    that item. *)
Lemma fill_spec {V R} (P : V → R → Prop) (g : V → world → R * world) items acc w :
  (∀ v w, P v (g v w).1) → NoDup items.*1 →
  ∀ k v, (k, v) ∈ items → ∃ r, (fill g items acc w).1 !! k = Some r ∧ P v r.
Proof.
  intros Hg. revert acc w.
  induction items as [|[k' v'] items IH]; intros acc w Hnd k v Hin.
  { by apply elem_of_nil in Hin. }
  simpl in *. apply NoDup_cons in Hnd as [Hk' Hnd].
  pose proof (Hg v' w) as Hv'. destruct (g v' w) as [r w1]. simpl in Hv'.
  apply elem_of_cons in Hin as [[= -> ->] | Hin]; [|by apply IH].
  exists r. by rewrite fill_other, lookup_insert_eq.
Qed.

Lemma uniform_spec a b w :
  ∃ u, unit_draw u ∧ (uniform a b w).1 = (a + (b - a) * u)%Q.
Proof.
  unfold uniform. pose proof (random_random_range w) as Hu.
  destruct (random_random w) as [u w1]. by exists u.
Qed.

Lemma jittered_spec c r w : jitter_of c r (jittered c r w).1.
Proof.
  unfold jittered.
  destruct (uniform_spec r.1 r.2 w) as (u1 & Hu1 & E1).
  destruct (uniform r.1 r.2 w) as [x w1]. simpl in E1. subst x.
  destruct (uniform_spec (- variance c) (variance c) w1) as (u2 & Hu2 & E2).
  destruct (uniform _ _ w1) as [j w2]. simpl in E2. subst j.
  by exists u1, u2.
Qed.

Lemma choice_spec {A} (o : A) os w : (choice o os w).1 ∈ o :: os.
Proof.
  unfold choice.
  pose proof (randbelow_range (length (o :: os)) w ltac:(simpl; lia)) as Hi.
  destruct (randbelow _ w) as [i w1]. cbn [fst] in *.
  apply list_elem_of_In. exact (nth_In (o :: os) o Hi).
Qed.

Lemma gen_value_spec c r w : rule_ok r = true → drawn_by c r (gen_value c r w).1.
Proof.
  destruct r as [lo hi | fields | o os | o os]; simpl; intros Hok.
  - pose proof (jittered_spec c (lo, hi) w) as H.
    destruct (jittered c (lo, hi) w) as [x w1]. by exists x.
  - apply andb_prop in Hok as [_ Hnd%bool_decide_eq_true].
    pose proof (fill_spec (jitter_of c) (jittered c) fields ∅ w
                  (jittered_spec c) Hnd) as H.
    pose proof (λ k, fill_other (jittered c) fields ∅ w k) as H'.
    destruct (fill (jittered c) fields ∅ w) as [g w1]. exists g.
    split_and!; [done | | done].
    intros k Hk. by rewrite H', lookup_empty.
  - pose proof (choice_spec o os w) as H.
    destruct (choice o os w) as [x w1]. by exists x.
  - pose proof (choice_spec o os w) as H.
    destruct (choice o os w) as [x w1]. by exists x.
Qed.

Lemma table_ok t :
  Forall (λ kr, rule_ok kr.2 = true) (metric_ranges t) ∧ NoDup (metric_ranges t).*1.
Proof.
  destruct t; (split; [by repeat constructor |]);
    apply (bool_decide_unpack _); by vm_compute.
Qed.

(** Lines 135-144: every metric of the table is present, produced by its
    rule. *)
Lemma gen_metrics_spec c t w k r :
  (k, r) ∈ metric_ranges t →
  ∃ v, (gen_metrics c (metric_ranges t) w).1 !! k = Some v ∧ drawn_by c r v.
Proof.
  intros Hin. destruct (table_ok t) as [Hok Hnd].
  destruct (fill_spec (λ r v, rule_ok r = true → drawn_by c r v) (gen_value c)
              (metric_ranges t) ∅ w (gen_value_spec c) Hnd k r Hin) as (v & Hv & Hd).
  exists v. split; [done|]. apply Hd.
  by apply (proj1 (Forall_forall _ _) Hok (k, r)).
Qed.

Lemma gen_metrics_other c t w k :
  k ∉ (metric_ranges t).*1 → (gen_metrics c (metric_ranges t) w).1 !! k = None.
Proof. intros Hk. unfold gen_metrics. by rewrite fill_other, lookup_empty. Qed.

(** Without variance the jitter factor is one and the draw stays in its
    range. *)
Lemma jitter_in_range c r x :
  (variance c == 0)%Q → (r.1 <= r.2)%Q → jitter_of c r x → (r.1 <= x ∧ x <= r.2)%Q.
Proof.
  intros Hv Hr (u1 & u2 & [H1 H1'] & [H2 H2'] & ->).
  assert (E : ((r.1 + (r.2 - r.1) * u1)
                * (1 + (- variance c + (variance c - - variance c) * u2))
               == r.1 + (r.2 - r.1) * u1)%Q).
  { rewrite Hv. ring. }
  rewrite E. split; nra.
Qed.

Lemma drawn_in_declared c r v :
  (variance c == 0)%Q → rule_ok r = true → drawn_by c r v → in_declared r v.
Proof.
  intros Hv. destruct r as [lo hi | fields | o os | o os]; simpl.
  - intros Hok%Qle_bool_iff (x & -> & Hx). by apply (jitter_in_range c (lo, hi)).
  - intros [Hok _]%andb_prop (g & -> & _ & Hg) k r' Hin.
    destruct (Hg k r' Hin) as (x & Hx & Hj). exists x. split; [done|].
    apply (jitter_in_range c r'); [done | | done].
    rewrite forallb_forall in Hok.
    apply Qle_bool_iff, (Hok (k, r')), list_elem_of_In, Hin.
  - by intros _ (s & -> & Hs).
  - by intros _ (b & -> & Hb).
Qed.

Lemma Qltb_lt x y : Qltb x y = true ↔ (x < y)%Q.
Proof.
  unfold Qltb. rewrite negb_true_iff, <- not_true_iff_false, Qle_bool_iff.
  split; [apply Qnot_le_lt | apply Qlt_not_le].
Qed.

(** The fault branch never raises on generated metrics, and does what the
    fault table says. *)
Lemma fault_mutation_spec c t w :
  ∃ m', fault_mutation t (gen_metrics c (metric_ranges t) w).1 = inr (m', fault_status t)
        ∧ fault_effect t (gen_metrics c (metric_ranges t) w).1 m'.
Proof.
  destruct t; cbn [fault_mutation fault_status fault_effect]; unfold add_to.
  - destruct (gen_metrics_spec c vehicle w "engine_temp" (ScalarRange 60 90))
      as (v & -> & x & -> & _); [in_list|]. eauto.
  - eauto.
  - destruct (gen_metrics_spec c env w "methane" (ScalarRange 0 5))
      as (v & -> & x & -> & _); [in_list|]. eauto.
  - eauto.
Qed.

(** [simulate_data] on an identifier whose type resolves: the record built,
    by the mode and the single fault draw. *)
Lemma simulate_payload_spec c d mode w t :
  get_device_type d = Some t →
  ∃ p w', simulate_payload c d mode w = (inr p, w')
    ∧ p_device_id p = d ∧ p_type p = t
    ∧ ((mode = "fault"
        ∧ Qltb (random_random (gen_metrics c (metric_ranges t) w).2).1 0.2 = true
        ∧ fault_effect t (gen_metrics c (metric_ranges t) w).1 (p_metrics p)
        ∧ p_status p = fault_status t)
       ∨ ((mode ≠ "fault"
           ∨ Qltb (random_random (gen_metrics c (metric_ranges t) w).2).1 0.2 = false)
          ∧ p_metrics p = (gen_metrics c (metric_ranges t) w).1
          ∧ p_status p = "normal")).
Proof.
  intros Ht. unfold simulate_payload. rewrite Ht.
  destruct (fault_mutation_spec c t w) as (m' & Hm' & Heff).
  destruct (gen_metrics c (metric_ranges t) w) as [m w1]. simpl in *.
  unfold inject_fault. destruct (decide (mode = "fault")) as [Hmode | Hmode].
  - destruct (random_random w1) as [u w2]. simpl.
    destruct (Qltb u 0.2) eqn:Hu.
    + rewrite Hm'. destruct (utcnow_isoformat w2) as [now w3].
      eexists _, _. split_and!; [done.. |]. left. by simpl.
    + destruct (utcnow_isoformat w2) as [now w3].
      eexists _, _. split_and!; [done.. |]. right. simpl. auto.
  - destruct (utcnow_isoformat w1) as [now w3].
    eexists _, _. split_and!; [done.. |]. right. simpl. auto.
Qed.

End GeneratorFacts.

(** ** Publish loop *)

Section PublishLoopFacts.
Context `{RT : Runtime}.
Variables (c : config) (device_id mode : string).

Local Abbreviation step1 := (publish_step c device_id mode).
Local Abbreviation runN := (publish_loop c device_id mode).

Lemma run_first n s : runN (S n) s = runN n (step1 s).
Proof. apply Nat.iter_succ_r. Qed.

Lemma run_run n m s : runN n (runN m s) = runN (n + m) s.
Proof. symmetry. apply Nat.iter_add. Qed.

Lemma step_inv s : loop_inv s → loop_inv (step1 s).
Proof.
  unfold loop_inv, publish_step. destruct s as [k b t w]. simpl.
  destruct k as [| data | data | data | data [|x pending] | data | data | data | e];
    simpl; try done.
  - intros ->. destruct (simulate_data c device_id mode w) as [[e | data] w1]; done.
  - intros ->. destruct (decide _); [|done].
    destruct (random_random w) as [u w1]. by destruct (Qltb u 0.3).
  - by intros ->.
  - intros ->. destruct (randint 10 30 w) as [d w1]. simpl. auto.
  - intros [-> _]. done.
  - intros [-> [[= -> ->] | [=]]]. auto.
  - intros ->. by destruct (decide _).
Qed.

Lemma run_inv n w : loop_inv (runN n (enter w)).
Proof. induction n as [|n IH]; [done|]. by apply step_inv. Qed.

(** The [for] loop of lines 181-182 publishes the pending items front to
    back and touches nothing else. *)
Lemma flush_pending data pending b t w :
  runN (length pending) (LoopState (AtFlush data pending) b t w)
  = LoopState (AtFlush data []) b
      (t ++ ((λ x, Publish (topic_of device_id) x 1) <$> pending)) w.
Proof.
  revert t. induction pending as [|x pending IH]; intros t.
  - by rewrite app_nil_r.
  - cbn [length]. rewrite run_first. cbn [publish_step ctl buffer trace rt].
    rewrite IH, <- app_assoc. done.
Qed.

Lemma randint_range a b w : a ≤ b → a ≤ (randint a b w).1 ≤ b.
Proof.
  intros Hab. unfold randint.
  pose proof (randbelow_range (Z.to_nat (b - a + 1)) w ltac:(lia)) as Hi.
  destruct (randbelow _ w) as [i w1]. simpl in *. lia.
Qed.

(** One outage cycle (lines 178-183), from the decision to buffer up to the
    tick wait, for any buffer content. *)
Lemma outage_cycle s data :
  ctl s = AtAppend data →
  runN (5 + length (buffer s)) s
  = LoopState (AtWait data) []
      (trace s ++ Sleep (randint 10 30 (rt s)).1
         :: ((λ x, Publish (topic_of device_id) x 1) <$> (buffer s ++ [data])))
      (randint 10 30 (rt s)).2.
Proof.
  destruct s as [k b t w]. cbn [ctl buffer trace rt]. intros ->.
  replace (5 + length b)%nat
    with (2 + (length (b ++ [data]) + 2))%nat by (rewrite length_app; simpl; lia).
  rewrite <- !run_run.
  assert (run2 : ∀ s, runN 2 s = step1 (step1 s)) by done.
  rewrite !run2. cbn [publish_step ctl buffer trace rt].
  destruct (randint 10 30 w) as [d w1]. cbn [fst snd].
  rewrite flush_pending. cbn [publish_step ctl buffer trace rt]. by rewrite <- app_assoc.
Qed.

Lemma reachable_inv s : reachable c device_id mode s → loop_inv s.
Proof. intros (n & w & ->). apply run_inv. Qed.

Lemma reachable_step s :
  reachable c device_id mode s → reachable c device_id mode (step1 s).
Proof. intros (n & w & ->). by exists (S n), w. Qed.

(** Line 178 is reached only from the test of line 177, in mode
    [intermittent]. *)
Lemma step_to_append s data :
  ctl (step1 s) = AtAppend data → ctl s = AtBranch data ∧ mode = "intermittent".
Proof.
  unfold publish_step. destruct s as [k b t w]. cbn [ctl buffer trace rt].
  destruct k as [| x | x | x | x [|y pending] | x | x | x | e]; cbn [ctl]; try done.
  - destruct (simulate_data c device_id mode w) as [[e | x] w1]; done.
  - destruct (decide _); [|done].
    destruct (random_random w) as [u w1]. destruct (Qltb u 0.3); [|done].
    by intros [= ->].
  - destruct (randint 10 30 w); done.
  - by destruct (decide _).
Qed.

(** Line 177 is reached only with the record that [simulate_data] just
    returned. *)
Lemma step_to_branch s data :
  ctl (step1 s) = AtBranch data →
  ctl s = AtSimulate ∧ (simulate_data c device_id mode (rt s)).1 = inr data.
Proof.
  unfold publish_step. destruct s as [k b t w]. cbn [ctl buffer trace rt].
  destruct k as [| x | x | x | x [|y pending] | x | x | x | e]; cbn [ctl]; try done.
  - destruct (simulate_data c device_id mode w) as [[e | x] w1]; [done|].
    by intros [= ->].
  - destruct (decide _); [|done].
    destruct (random_random w) as [u w1]. by destruct (Qltb u 0.3).
  - destruct (randint 10 30 w); done.
  - by destruct (decide _).
Qed.

(** The record an outage iteration buffers is the one generated two steps
    before, at the head of the same iteration. *)
Lemma append_origin s data :
  reachable c device_id mode s → ctl s = AtAppend data →
  mode = "intermittent"
  ∧ ∃ s0, reachable c device_id mode s0 ∧ ctl s0 = AtSimulate
          ∧ (simulate_data c device_id mode (rt s0)).1 = inr data
          ∧ s = runN 2 s0.
Proof.
  intros (n & w & ->) Hctl.
  destruct n as [|n]; [done|].
  apply step_to_append in Hctl as [Hctl Hmode]. split; [done|].
  destruct n as [|n]; [done|].
  apply step_to_branch in Hctl as [Hctl Hdata].
  exists (runN n (enter w)). split_and!; [by exists n, w | done..].
Qed.

End PublishLoopFacts.

(** * The claims *)

(** C1. For every identifier of the registry, [simulate_data] returns a
    record; in mode [fault], when the single draw of the record is below
    0.2, the record carries exactly the mutation of its device type
    (vehicle: [engine_temp] plus 50 and status [fault_overheat]; fixed asset:
    [operational_status] set to [jammed] and status [fault_jam];
    environmental: [methane] plus 10 and status [fault_gas]; personnel:
    [fall_detection] set to true and status [fault_fall]); otherwise, and in
    every other mode, the metrics are untouched and the status is
    [normal]. *)
Theorem fault_injection_by_type `{RT : Runtime} (c : config) (d mode : string)
    (w : world) :
  d ∈ all_devices c →
  ∃ t p w', get_device_type d = Some t
    ∧ simulate_payload c d mode w = (inr p, w')
    ∧ (mode = "fault" → (fault_draw c t w < 0.2)%Q →
         fault_effect t (generated_metrics c t w) (p_metrics p)
         ∧ p_status p = fault_status t)
    ∧ (mode = "fault" → ¬ (fault_draw c t w < 0.2)%Q →
         p_metrics p = generated_metrics c t w ∧ p_status p = "normal")
    ∧ (mode ≠ "fault" →
         p_metrics p = generated_metrics c t w ∧ p_status p = "normal").
Proof.
  intros [t Ht]%all_devices_type.
  destruct (simulate_payload_spec c d mode w t Ht) as (p & w' & E & _ & _ & H).
  exists t, p, w'. unfold fault_draw, generated_metrics.
  split_and!; [done | done | ..].
  - intros Hm Hu%Qltb_lt. destruct H as [(_ & _ & ? & ?) | ([? | Hu'] & _)];
      [done | done | congruence].
  - intros Hm Hu. destruct H as [(_ & Hu'%Qltb_lt & _) | (_ & ? & ?)]; done.
  - intros Hm. destruct H as [(? & _) | (_ & ? & ?)]; done.
Qed.

Lemma fault_injection_by_type_witness :
  ∃ t p w', get_device_type "haul_truck_000" = Some t
    ∧ @simulate_payload tape_runtime (with_mode "fault" default_config)
        "haul_truck_000" "fault" [] = (inr p, w')
    ∧ ("fault" = "fault" →
       (@fault_draw tape_runtime (with_mode "fault" default_config) t [] < 0.2)%Q →
         fault_effect t
           (@generated_metrics tape_runtime (with_mode "fault" default_config) t [])
           (p_metrics p)
         ∧ p_status p = fault_status t)
    ∧ ("fault" = "fault" →
       ¬ (@fault_draw tape_runtime (with_mode "fault" default_config) t [] < 0.2)%Q →
         p_metrics p
         = @generated_metrics tape_runtime (with_mode "fault" default_config) t []
         ∧ p_status p = "normal")
    ∧ ("fault" ≠ "fault" →
         p_metrics p
         = @generated_metrics tape_runtime (with_mode "fault" default_config) t []
         ∧ p_status p = "normal").
Proof.
  apply (@fault_injection_by_type tape_runtime (with_mode "fault" default_config)
           "haul_truck_000" "fault" []).
  decide_it.
Defined.

(** Every category list is the first [count] entries of its grid. *)
Lemma category_ids_grid c t :
  0 ≤ category_count c t →
  category_ids c t
  = take (Z.to_nat (category_count c t))
      (id_grid (category_prefix t) (category_tokens t) (category_block c t)).
Proof.
  intros Hn.
  destruct t;
    cbn [category_ids category_count category_prefix category_tokens
         category_block] in *;
    try (unfold vehicles, fixed_assets, env_sensors; by rewrite slice_to_nonneg).
  rewrite take_ge by (rewrite length_id_grid; simpl; lia).
  unfold personnel, id_grid. by rewrite bind_cons, app_nil_r.
Qed.

Lemma category_block_covers c t :
  0 ≤ category_count c t →
  (Z.to_nat (category_count c t)
   ≤ length (category_tokens t) * Z.to_nat (category_block c t))%nat.
Proof.
  intros Hn. destruct t; simpl in *; try lia.
  - pose proof (Z.mul_succ_div_gt (num_vehicles c) 3 ltac:(lia)). lia.
  - pose proof (Z.mul_succ_div_gt (num_fixed_assets c) 3 ltac:(lia)). lia.
  - pose proof (Z.mul_succ_div_gt (num_env_sensors c) 5 ltac:(lia)). lia.
Qed.

Lemma category_separable t : separable (category_prefix t) (category_tokens t).
Proof.
  destruct t; cbn [category_prefix category_tokens];
    [apply separable_vehicle | apply separable_fixed | apply separable_env |].
  intros t1 t2 s1 s2 ->%list_elem_of_singleton ->%list_elem_of_singleton E.
  split; [done|]. by apply (app_inj_prefix "personnel_").
Qed.

Lemma category_tokens_NoDup t : NoDup (category_tokens t).
Proof. destruct t; apply (bool_decide_unpack _); by vm_compute. Qed.

(** C2, as the code has it.  For every non-negative configured count, a
    category holds exactly that many identifiers, all distinct, each built
    from a subtype token of the category and a zero-based index; they are
    laid out token by token: position [p] carries token number
    [p / block] and index [p mod block], where [block] is
    [count // k + 1] for the [k] tokens of the category ([count] itself for
    personnel).  So 5 vehicles split 2,2,1 and 6 vehicles split 3,3,0. *)
Theorem registry_layout (c : config) (t : type_name) :
  0 ≤ category_count c t →
  length (category_ids c t) = Z.to_nat (category_count c t)
  ∧ NoDup (category_ids c t)
  ∧ ∀ p : nat, Z.of_nat p < category_count c t →
      ∃ typ,
        category_tokens t !! (p / Z.to_nat (category_block c t))%nat = Some typ
        ∧ category_ids c t !! p
          = Some (make_id (category_prefix t) typ
                    (Z.of_nat (p mod Z.to_nat (category_block c t)))).
Proof.
  intros Hn. rewrite category_ids_grid by done.
  pose proof (category_block_covers c t Hn) as Hcov.
  split_and!.
  - apply length_take_le. by rewrite length_id_grid.
  - pose proof (NoDup_id_grid _ _ (category_block c t) (category_separable t)
                  (category_tokens_NoDup t)).
    eapply sublist_NoDup; eauto using sublist_take.
  - intros p Hp. remember (Z.to_nat (category_block c t)) as B eqn:EB.
    assert (HB : (0 < B)%nat) by (destruct (Nat.eq_dec B 0%nat); nia).
    assert (Hj : (p / B < length (category_tokens t))%nat).
    { apply Nat.Div0.div_lt_upper_bound. nia. }
    destruct (lookup_lt_is_Some_2 _ _ Hj) as [typ Htyp].
    exists typ. split; [done|].
    rewrite lookup_take_lt by lia.
    pose proof (Nat.mod_upper_bound p B ltac:(lia)) as Hi.
    rewrite <- (lookup_id_grid (category_prefix t) _ (category_block c t) _ _
                  (Z.of_nat (p mod B)) Htyp) by lia.
    f_equal. rewrite Nat2Z.id, <- EB. pose proof (Nat.div_mod_eq p B). lia.
Qed.

Lemma registry_layout_witness :
  0 ≤ category_count default_config vehicle
  ∧ length (category_ids default_config vehicle) = 5%nat
  ∧ NoDup (category_ids default_config vehicle)
  ∧ ∀ p : nat, Z.of_nat p < 5 →
      ∃ typ,
        category_tokens vehicle !! (p / 2)%nat = Some typ
        ∧ category_ids default_config vehicle !! p
          = Some (make_id "" typ (Z.of_nat (p mod 2))).
Proof.
  split; [vm_compute; discriminate|].
  apply (registry_layout default_config vehicle). vm_compute. discriminate.
Defined.

(** C2, as stated, fails: with six vehicles the comprehension gives three
    haul trucks, three loaders and no excavator, so the counts of two
    subtypes differ by three. *)
Lemma six_vehicles_not_round_robin :
  0 ≤ num_vehicles (with_counts 6 10 20 15 default_config)
  ∧ vehicles (with_counts 6 10 20 15 default_config)
    = ["haul_truck_000"; "haul_truck_001"; "haul_truck_002";
       "loader_000"; "loader_001"; "loader_002"]
  ∧ ¬ (∀ t1 t2, t1 ∈ vehicle_tokens → t2 ∈ vehicle_tokens →
         (subtype_count "" t1 (vehicles (with_counts 6 10 20 15 default_config))
          ≤ subtype_count "" t2 (vehicles (with_counts 6 10 20 15 default_config)) + 1)%nat).
Proof.
  split_and!; [by vm_compute | by vm_compute |].
  intros H. specialize (H "haul_truck" "excavator" ltac:(in_list) ltac:(in_list)).
  vm_compute in H. lia.
Qed.

Lemma fault_status_not_normal t : fault_status t ≠ "normal".
Proof. by destruct t. Qed.

Lemma fault_effect_other t m m' k :
  fault_effect t m m' → k ≠ fault_key t → m' !! k = m !! k.
Proof.
  destruct t; simpl; intros H Hk;
    [destruct H as (x & _ & ->) | subst m' | destruct H as (x & _ & ->) | subst m'];
    by rewrite lookup_insert_ne.
Qed.

Lemma fill_state {V R} `{RT : Runtime} (g : V → world → R * world)
    (advance : V → world → world) items acc w :
  (∀ v w, (g v w).2 = advance v w) →
  (fill g items acc w).2 = fold_left (λ w' kv, advance kv.2 w') items w.
Proof.
  intros Hadv. revert acc w.
  induction items as [|[k v] items IH]; intros acc w; [done|].
  simpl. pose proof (Hadv v w) as Hw. destruct (g v w) as [r w1].
  simpl in Hw. subst w1. apply IH.
Qed.

(** Each entry of a filled dictionary is what the generator returns in the
    state the earlier entries left. *)
Lemma fill_at {V R} `{RT : Runtime} (g : V → world → R * world)
    (advance : V → world → world) items acc w k v :
  (∀ v w, (g v w).2 = advance v w) → NoDup items.*1 → (k, v) ∈ items →
  (fill g items acc w).1 !! k = Some (g v (state_at advance items k w)).1.
Proof.
  intros Hadv. revert acc w.
  induction items as [|[k' v'] items IH]; intros acc w Hnd Hin.
  { by apply elem_of_nil in Hin. }
  simpl in *. apply NoDup_cons in Hnd as [Hk' Hnd].
  pose proof (Hadv v' w) as Hw. destruct (g v' w) as [r w1] eqn:E.
  simpl in Hw. subst w1.
  apply elem_of_cons in Hin as [[= -> ->] | Hin].
  - destruct (decide (k' = k')); [|done].
    by rewrite fill_other, lookup_insert_eq, E.
  - destruct (decide (k' = k)) as [-> | _]; [|by apply IH].
    destruct Hk'. apply list_elem_of_fmap. by exists (k, v).
Qed.

Lemma jittered_value `{RT : Runtime} c r w :
  jittered c r w = (jitter_value c r w, after_two_draws w).
Proof.
  unfold jittered, uniform, jitter_value, after_two_draws.
  destruct (random_random w) as [u1 w1]. cbn [fst snd].
  by destruct (random_random w1) as [u2 w2].
Qed.

Lemma gen_value_state `{RT : Runtime} c r w :
  (gen_value c r w).2 = after_rule r w.
Proof.
  destruct r as [lo hi | fields | o os | o os]; cbn [gen_value after_rule].
  - by rewrite jittered_value.
  - pose proof (fill_state (jittered c) (λ _, after_two_draws) fields ∅ w) as H.
    destruct (fill (jittered c) fields ∅ w) as [g w1]. cbn [snd] in *.
    apply H. intros v w0. by rewrite jittered_value.
  - unfold choice. by destruct (randbelow _ w).
  - unfold choice. by destruct (randbelow _ w).
Qed.

Lemma gen_value_rule `{RT : Runtime} c r w :
  rule_ok r = true → rule_value c r w (gen_value c r w).1.
Proof.
  destruct r as [lo hi | fields | o os | o os];
    cbn [gen_value rule_value rule_ok]; intros Hok.
  - by rewrite jittered_value.
  - apply andb_prop in Hok as [_ Hnd%bool_decide_eq_true].
    pose proof (λ f r' (Hin : (f, r') ∈ fields),
                fill_at (jittered c) (λ _, after_two_draws) fields ∅ w f r'
                  (λ v w0, f_equal snd (jittered_value c v w0)) Hnd Hin) as H.
    pose proof (λ f, fill_other (jittered c) fields ∅ w f) as H'.
    destruct (fill (jittered c) fields ∅ w) as [g w1]. cbn [fst] in *.
    exists g. split_and!; [done | |].
    + intros f Hf. by rewrite H', lookup_empty.
    + intros f r' Hin. rewrite (H f r' Hin). by rewrite jittered_value.
  - unfold choice. by destruct (randbelow _ w).
  - unfold choice. by destruct (randbelow _ w).
Qed.

(** Lines 135-144 against the runtime: each metric of the table is the
    value of its rule in the state the earlier metrics left. *)
Lemma gen_metrics_at `{RT : Runtime} c t w k r :
  (k, r) ∈ metric_ranges t →
  ∃ v, (gen_metrics c (metric_ranges t) w).1 !! k = Some v
       ∧ rule_value c r (state_at after_rule (metric_ranges t) k w) v.
Proof.
  intros Hin. destruct (table_ok t) as [Hok Hnd].
  eexists. split.
  - apply (fill_at (gen_value c) after_rule); [apply gen_value_state | done..].
  - apply gen_value_rule. by apply (proj1 (Forall_forall _ _) Hok (k, r)).
Qed.

(** C3, as the code has it.  For every identifier whose type resolves,
    [simulate_data] returns a record, and every metric of the type's table
    to which no fault mutation was applied (every metric of a record with
    status [normal]; in a faulted record, every metric other than the one
    the fault touches) is present and is the value of its rule at the draws
    of the runtime that fall to it: a number, scalar or nested, is the draw
    of [random.random] placed in its range times the factor
    [1 + U(-variance, variance)] of the next draw; a categorical or boolean
    value is the option picked, with no factor.  The two draws are in
    [[0, 1)], and with [variance = 0] the value lies in its declared range
    or option set. *)
Theorem metrics_follow_rules `{RT : Runtime} (c : config) (d mode : string)
    (w : world) (t : type_name) :
  get_device_type d = Some t →
  ∃ p w', simulate_payload c d mode w = (inr p, w')
    ∧ ∀ k r, (k, r) ∈ metric_ranges t →
        p_status p = "normal" ∨ k ≠ fault_key t →
        ∃ v, p_metrics p !! k = Some v
             ∧ rule_value c r (state_at after_rule (metric_ranges t) k w) v
             ∧ drawn_by c r v
             ∧ ((variance c == 0)%Q → in_declared r v).
Proof.
  intros Ht.
  destruct (simulate_payload_spec c d mode w t Ht) as (p & w' & E & _ & _ & H).
  exists p, w'. split; [done|]. intros k r Hin Hk.
  destruct (gen_metrics_at c t w k r Hin) as (v & Hv & Hat).
  destruct (gen_metrics_spec c t w k r Hin) as (v' & Hv' & Hd).
  rewrite Hv in Hv'. injection Hv' as <-.
  assert (Hok : rule_ok r = true).
  { destruct (table_ok t) as [Hok _].
    by apply (proj1 (Forall_forall _ _) Hok (k, r)). }
  exists v. split_and!; [| done | done | eauto using drawn_in_declared].
  destruct H as [(_ & _ & Heff & Hst) | (_ & -> & _)]; [|done].
  destruct Hk as [Hk | Hk].
  - rewrite Hst in Hk. by apply fault_status_not_normal in Hk.
  - by rewrite (fault_effect_other _ _ _ _ Heff Hk).
Qed.

Lemma metrics_follow_rules_witness :
  ∃ p w',
    @simulate_payload tape_runtime default_config
      "env_methane_001" "normal" [500; 750; 200; 0; 999; 500; 100; 900]%nat
    = (inr p, w')
    ∧ ∀ k r, (k, r) ∈ metric_ranges env →
        p_status p = "normal" ∨ k ≠ fault_key env →
        ∃ v, p_metrics p !! k = Some v
             ∧ @rule_value tape_runtime default_config r
                 (@state_at tape_runtime _ (@after_rule tape_runtime)
                    (metric_ranges env) k
                    [500; 750; 200; 0; 999; 500; 100; 900]%nat) v
             ∧ drawn_by default_config r v
             ∧ ((variance default_config == 0)%Q → in_declared r v).
Proof.
  apply (@metrics_follow_rules tape_runtime default_config
           "env_methane_001" "normal"
           [500; 750; 200; 0; 999; 500; 100; 900]%nat env).
  vm_compute. reflexivity.
Defined.

(** The same record in numbers, with the default variance 0.1: the draws
    0.5 and 0.75 give [co_co2 = (0 + 50 * 0.5) * (1 + (-0.1 + 0.2 * 0.75))],
    the draws 0.2 and 0 give [methane = (0 + 5 * 0.2) * (1 - 0.1)]. *)
Example jitter_in_numbers :
  ∃ p w',
    @simulate_payload tape_runtime default_config
      "env_methane_001" "normal" [500; 750; 200; 0; 999; 500; 100; 900]%nat
    = (inr p, w')
    ∧ (∃ x, p_metrics p !! "co_co2" = Some (VNum x) ∧ (x == 26.25)%Q)
    ∧ (∃ x, p_metrics p !! "methane" = Some (VNum x) ∧ (x == 0.9)%Q).
Proof.
  eexists _, _. split; [vm_compute; reflexivity|].
  split; eexists; (split; [vm_compute; reflexivity | done]).
Qed.

(** C3, as stated, fails on a faulted record: with [variance = 0] and mode
    [fault], a haul truck whose fault draw is below 0.2 reports
    [engine_temp = 110], outside the declared range [60, 90]. *)
Lemma faulted_vehicle_leaves_range :
  (variance (with_variance 0 default_config) == 0)%Q
  ∧ ("engine_temp", ScalarRange 60 90) ∈ metric_ranges vehicle
  ∧ ∃ p w',
      @simulate_payload tape_runtime (with_variance 0 default_config)
        "haul_truck_000" "fault" [] = (inr p, w')
      ∧ p_type p = vehicle
      ∧ ∃ x, p_metrics p !! "engine_temp" = Some (VNum x)
             ∧ (x == 110)%Q
             ∧ ¬ in_declared (ScalarRange 60 90) (VNum x).
Proof.
  split_and!; [done | in_list |].
  eexists _, _. split; [vm_compute; reflexivity|]. split; [done|].
  eexists. split; [vm_compute; reflexivity|]. split; [done|].
  unfold in_declared, Qle. simpl. lia.
Qed.

Lemma category_ids_negative c t : category_count c t < 0 → category_ids c t = [].
Proof.
  intros Hn.
  destruct t;
    cbn [category_ids category_count] in *;
    unfold vehicles, fixed_assets, env_sensors, personnel.
  - rewrite id_grid_empty, slice_to_nil; [done|].
    pose proof (Z.div_lt_upper_bound (num_vehicles c) 3 0). lia.
  - rewrite id_grid_empty, slice_to_nil; [done|].
    pose proof (Z.div_lt_upper_bound (num_fixed_assets c) 3 0). lia.
  - rewrite id_grid_empty, slice_to_nil; [done|].
    pose proof (Z.div_lt_upper_bound (num_env_sensors c) 5 0). lia.
  - by rewrite seqZ_nil by lia.
Qed.

(** C4, as the code has it.  A negative device count raises nothing: the
    category concerned contributes no identifier, and a configuration that
    passes the mode and TLS checks starts with the device list so built. *)
Theorem negative_count_gives_no_ids (c : config) (t : type_name)
    (conn : connection) :
  category_count c t < 0 →
  validate_mode c = inr tt →
  configure_client c = inr conn →
  category_ids c t = []
  ∧ startup c = inr (conn, (λ d, (d, mode c)) <$> all_devices c).
Proof.
  intros Hn Hm Hc. split; [by apply category_ids_negative|].
  unfold startup. by rewrite Hm, Hc.
Qed.

Lemma negative_count_gives_no_ids_witness :
  category_count (with_counts (-4) 10 20 15 default_config) vehicle < 0
  ∧ category_ids (with_counts (-4) 10 20 15 default_config) vehicle = []
  ∧ startup (with_counts (-4) 10 20 15 default_config)
    = inr (Connection "localhost" 1883 None,
           (λ d, (d, "normal"))
             <$> all_devices (with_counts (-4) 10 20 15 default_config)).
Proof.
  split; [reflexivity|].
  apply (negative_count_gives_no_ids (with_counts (-4) 10 20 15 default_config)
           vehicle (Connection "localhost" 1883 None));
    reflexivity.
Defined.

(** C4, as stated, fails: with [num_vehicles = -1] start-up raises nothing
    and returns the device list of the three other categories. *)
Lemma negative_count_starts :
  num_vehicles (with_counts (-1) 1 1 1 default_config) < 0
  ∧ startup (with_counts (-1) 1 1 1 default_config)
    = inr (Connection "localhost" 1883 None,
           [("fan_000", "normal"); ("env_co_co2_000", "normal");
            ("personnel_000", "normal")]).
Proof. split; [reflexivity | vm_compute; reflexivity]. Qed.




(** C9.  A mode outside [normal], [fault], [intermittent] makes start-up
    raise [ValueError] before any device thread is created; a mode of the
    set passes the validation. *)
Theorem mode_is_validated (c : config) :
  (mode c ∉ modes →
     startup c = inl (ValueError "Mode must be 'normal', 'fault', or 'intermittent'"))
  ∧ (mode c ∈ modes → validate_mode c = inr tt).
Proof.
  unfold startup, validate_mode. split; intros H; by destruct (decide _).
Qed.

Lemma mode_is_validated_witness :
  startup (with_mode "Normal" default_config)
    = inl (ValueError "Mode must be 'normal', 'fault', or 'intermittent'")
  ∧ validate_mode (with_mode "intermittent" default_config) = inr tt.
Proof.
  split.
  - apply (proj1 (mode_is_validated (with_mode "Normal" default_config))).
    decide_it.
  - apply (proj2 (mode_is_validated (with_mode "intermittent" default_config))).
    decide_it.
Defined.

Lemma category_ids_made c t d :
  d ∈ category_ids c t →
  ∃ typ i, typ ∈ category_tokens t ∧ 0 ≤ i ∧ d = make_id (category_prefix t) typ i.
Proof.
  destruct t; cbn [category_ids category_tokens category_prefix].
  - intros (typ & i & ? & ? & ->)%slice_to_elem%elem_of_id_grid.
    exists typ, i. split_and!; [done | lia | done].
  - intros (typ & i & ? & ? & ->)%slice_to_elem%elem_of_id_grid.
    exists typ, i. split_and!; [done | lia | done].
  - intros (typ & i & ? & ? & ->)%slice_to_elem%elem_of_id_grid.
    exists typ, i. split_and!; [done | lia | done].
  - intros (i & ->%list_elem_of_singleton & Hi%elem_of_seqZ)%list_elem_of_bind.
    exists "personnel", i. split_and!; [in_list | lia | done].
Qed.

(** C6.  Every identifier of the registry was built from a subtype token of
    one category and a zero-based index, and [get_device_type] returns that
    category (a value, never [None]); the identifier belongs to the list of
    no other category.  [get_device_type] is a function of the identifier
    alone. *)
Theorem registry_ids_resolve (c : config) (d : string) :
  d ∈ all_devices c →
  ∃ t typ i,
    d ∈ category_ids c t
    ∧ typ ∈ category_tokens t ∧ 0 ≤ i ∧ d = make_id (category_prefix t) typ i
    ∧ get_device_type d = Some t
    ∧ ∀ t', d ∈ category_ids c t' → t' = t.
Proof.
  intros [t Ht]%all_devices_category.
  destruct (category_ids_made c t d Ht) as (typ & i & Htyp & Hi & E).
  exists t, typ, i. split_and!; [done.. | by apply (category_ids_type c) |].
  intros t' Ht'. apply category_ids_type in Ht, Ht'. congruence.
Qed.

Lemma registry_ids_resolve_witness :
  ∃ t typ i,
    "env_temp_hum_002" ∈ category_ids default_config t
    ∧ typ ∈ category_tokens t ∧ 0 ≤ i
    ∧ "env_temp_hum_002" = make_id (category_prefix t) typ i
    ∧ get_device_type "env_temp_hum_002" = Some t
    ∧ ∀ t', "env_temp_hum_002" ∈ category_ids default_config t' → t' = t.
Proof.
  apply (registry_ids_resolve default_config "env_temp_hum_002"). decide_it.
Defined.

Lemma no_token_unresolved d : no_token d → get_device_type d = None.
Proof.
  intros H. unfold get_device_type.
  rewrite !H by in_list. done.
Qed.

(** C7, as the code has it.  For an identifier in which no category token
    occurs, [get_device_type] raises nothing: it returns [None]; the error
    comes from its caller [simulate_data], where the lookup of the metric
    table with [None] raises [KeyError] before any random draw. *)
Theorem unmatched_id_returns_none (d : string) :
  no_token d →
  get_device_type d = None
  ∧ ∀ (RT : Runtime) c mode (w : world),
      simulate_data c d mode w = (inl (KeyError None), w).
Proof.
  intros H%no_token_unresolved. split; [done|].
  intros RT c mode w. unfold simulate_data, simulate_payload. by rewrite H.
Qed.

Lemma unmatched_id_returns_none_witness :
  no_token "drone_007"
  ∧ get_device_type "drone_007" = None
  ∧ ∀ (RT : Runtime) c mode (w : world),
      simulate_data c "drone_007" mode w = (inl (KeyError None), w).
Proof.
  assert (H : no_token "drone_007").
  { intros tok Htok. repeat (apply elem_of_cons in Htok as [-> | Htok]);
      [reflexivity.. | by apply elem_of_nil in Htok]. }
  split; [exact H|]. apply (unmatched_id_returns_none "drone_007" H).
Defined.

(** C7, as stated, fails: no category token occurs in [drone_007], and the
    call returns the value [None] where the claim has an error; the first
    exception is the [KeyError] of the table lookup in [simulate_data]. *)
Lemma unmatched_id_is_not_an_error :
  (∀ tok, tok ∈ ["truck"; "loader"; "excavator"; "fan"; "vent"; "conveyor";
                 "env"; "personnel"] → contains tok "drone_007" = false)
  ∧ get_device_type "drone_007" = None
  ∧ @simulate_data tape_runtime default_config "drone_007" "normal" []
    = (inl (KeyError None), []).
Proof.
  split_and!; [|reflexivity..].
  intros tok Htok. repeat (apply elem_of_cons in Htok as [-> | Htok]);
    [reflexivity.. | by apply elem_of_nil in Htok].
Qed.

(** C8.  At the start of every iteration of [publish_loop] the buffer is
    empty.  An outage cycle occurs only in mode [intermittent] and buffers
    the record generated at the head of the same iteration; the records in
    the buffer followed by that record are then published in this order,
    with nothing in between, after one sleep of 10 to 30 seconds, and the
    buffer is empty once the flush is over (line 183, before the tick wait
    that ends the iteration). *)
Theorem outage_flush_is_fifo `{RT : Runtime} (c : config) (d mode : string)
    (s : loop_state) (data : string) :
  reachable c d mode s →
  (ctl s = AtSimulate → buffer s = [])
  ∧ (ctl s = AtAppend data →
       mode = "intermittent"
       ∧ (∃ s0, reachable c d mode s0 ∧ ctl s0 = AtSimulate
                ∧ (simulate_data c d mode (rt s0)).1 = inr data
                ∧ s = publish_loop c d mode 2 s0)
       ∧ ∃ secs w',
           10 ≤ secs ≤ 30
           ∧ publish_loop c d mode (5 + length (buffer s)) s
             = LoopState (AtWait data) []
                 (trace s
                  ++ Sleep secs
                     :: ((λ x, Publish (topic_of d) x 1) <$> (buffer s ++ [data])))
                 w').
Proof.
  intros Hs. pose proof (reachable_inv c d mode s Hs) as Hinv.
  unfold loop_inv in Hinv.
  split; intros Hctl; [by rewrite Hctl in Hinv|].
  destruct (append_origin c d mode s data Hs Hctl) as [Hmode Horigin].
  split_and!; [done.. |].
  exists (randint 10 30 (rt s)).1, (randint 10 30 (rt s)).2.
  split; [by apply randint_range | by apply outage_cycle].
Qed.

Lemma outage_flush_is_fifo_witness :
  ctl (@publish_loop tape_runtime (with_mode "intermittent" default_config)
         "loader_001" "intermittent" 2 (@enter tape_runtime []))
    = AtAppend "loader_001 normal"
  ∧ ∃ secs w',
      10 ≤ secs ≤ 30
      ∧ @publish_loop tape_runtime (with_mode "intermittent" default_config)
          "loader_001" "intermittent" 5
          (@publish_loop tape_runtime (with_mode "intermittent" default_config)
             "loader_001" "intermittent" 2 (@enter tape_runtime []))
        = @LoopState tape_runtime (AtWait "loader_001 normal") []
            [Sleep secs; Publish "mining/loader_001" "loader_001 normal" 1] w'.
Proof.
  split; [vm_compute; reflexivity|].
  assert (Hs : @reachable tape_runtime (with_mode "intermittent" default_config)
                 "loader_001" "intermittent"
                 (@publish_loop tape_runtime
                    (with_mode "intermittent" default_config)
                    "loader_001" "intermittent" 2 (@enter tape_runtime []))).
  { exists 2%nat, []. reflexivity. }
  apply (proj2 (@outage_flush_is_fifo tape_runtime
                  (with_mode "intermittent" default_config)
                  "loader_001" "intermittent" _ "loader_001 normal" Hs)).
  vm_compute. reflexivity.
Defined.

(** C10.  The buffer of [publish_loop] never holds more than one record:
    at every control point it has at most one element, and none at the
    start of an iteration.  An iteration that takes the outage branch finds
    the buffer empty, appends its one record, publishes exactly that record
    and clears the buffer before the iteration ends (no new iteration starts
    within these five steps). *)
Theorem buffer_holds_at_most_one `{RT : Runtime} (c : config) (d mode : string)
    (s : loop_state) (data : string) :
  reachable c d mode s →
  (length (buffer s) ≤ 1)%nat
  ∧ (ctl s = AtSimulate → length (buffer s) = 0%nat)
  ∧ (ctl s = AtAppend data →
       buffer s = []
       ∧ buffer (publish_step c d mode s) = [data]
       ∧ (∃ secs w',
            publish_loop c d mode 5 s
            = LoopState (AtWait data) []
                (trace s ++ [Sleep secs; Publish (topic_of d) data 1]) w')
       ∧ ∀ k, (1 ≤ k ≤ 5)%nat → ctl (publish_loop c d mode k s) ≠ AtSimulate).
Proof.
  intros Hs. pose proof (reachable_inv c d mode s Hs) as Hinv.
  unfold loop_inv in Hinv. split_and!.
  - destruct (ctl s) as [| | | | ? [|? ?] | | | |];
      first [rewrite Hinv | destruct Hinv as [-> _]]; simpl; lia.
  - intros Hctl. rewrite Hctl in Hinv. by rewrite Hinv.
  - intros Hctl. rewrite Hctl in Hinv.
    pose proof (outage_cycle c d mode _ data Hctl) as Hcyc.
    rewrite Hinv in Hcyc. cbn [length Nat.add app fmap list_fmap] in Hcyc.
    split_and!; [done | | eauto |].
    + unfold publish_step. rewrite Hctl. cbn [buffer]. by rewrite Hinv.
    + intros k Hk. destruct s as [k0 b t w0]. simpl in Hctl, Hinv. subst k0 b.
      assert (Hcases : k = 1%nat ∨ k = 2%nat ∨ k = 3%nat ∨ k = 4%nat ∨ k = 5%nat)
        by lia.
      destruct Hcases as [-> | [-> | [-> | [-> | ->]]]];
        repeat (rewrite run_first; cbn [publish_step ctl buffer trace rt app];
                try destruct (randint 10 30 w0) as [? ?]);
        done.
Qed.

Lemma buffer_holds_at_most_one_witness :
  ctl (@publish_loop tape_runtime (with_mode "intermittent" default_config)
         "fan_003" "intermittent" 2 (@enter tape_runtime [299]%nat))
    = AtAppend "fan_003 normal"
  ∧ (∃ secs w',
       @publish_loop tape_runtime (with_mode "intermittent" default_config)
         "fan_003" "intermittent" 5
         (@publish_loop tape_runtime (with_mode "intermittent" default_config)
            "fan_003" "intermittent" 2 (@enter tape_runtime [299]%nat))
       = @LoopState tape_runtime (AtWait "fan_003 normal") []
           [Sleep secs; Publish "mining/fan_003" "fan_003 normal" 1] w').
Proof.
  split; [vm_compute; reflexivity|].
  assert (Hs : @reachable tape_runtime (with_mode "intermittent" default_config)
                 "fan_003" "intermittent"
                 (@publish_loop tape_runtime
                    (with_mode "intermittent" default_config)
                    "fan_003" "intermittent" 2 (@enter tape_runtime [299]%nat))).
  { exists 2%nat, [299]%nat. reflexivity. }
  apply (proj2 (proj2 (@buffer_holds_at_most_one tape_runtime
                  (with_mode "intermittent" default_config)
                  "fan_003" "intermittent" _ "fan_003 normal" Hs))).
  vm_compute. reflexivity.
Defined.

(** * Further properties of the code *)

(** ** Loading the configuration *)

(** X1.  When the configuration file is missing, or holds the empty object,
    [load_config] returns the built-in defaults, which read as
    [default_config]; a missing file is reported by one printed line that
    names it, an empty object prints nothing. *)
Theorem load_config_falls_back (fs : string → file_state) (path : string) :
  fs path = FileNotFound ∨ fs path = FileObject ∅ →
  (load_config fs path).1 = default_dict
  ∧ read_config (load_config fs path).1 = Some default_config
  ∧ (load_config fs path).2
    = match fs path with
      | FileNotFound => ["Config file " +:+ path +:+ " not found, using defaults"]
      | FileObject _ => []
      end.
Proof.
  unfold load_config.
  intros [-> | ->]; cbn [fst snd]; rewrite ?(left_id_L ∅ (∪)); done.
Qed.

Lemma load_config_falls_back_witness :
  (load_config (λ _, FileNotFound) "config.json").1 = default_dict
  ∧ read_config (load_config (λ _, FileNotFound) "config.json").1
    = Some default_config
  ∧ (load_config (λ _, FileNotFound) "config.json").2
    = ["Config file config.json not found, using defaults"].
Proof.
  apply (load_config_falls_back (λ _, FileNotFound) "config.json").
  left. reflexivity.
Defined.

(** X2.  When the file holds an object, every entry of the file is returned
    as it is (also entries the script does not know), every key the file
    leaves out keeps its default, and nothing is printed. *)
Theorem load_config_file_wins (fs : string → file_state) (path : string)
    (entries : gmap string jvalue) (k : string) :
  fs path = FileObject entries →
  (load_config fs path).1 !! k
  = match entries !! k with
    | Some v => Some v
    | None => default_dict !! k
    end
  ∧ (load_config fs path).2 = [].
Proof.
  intros E. unfold load_config. rewrite E. cbn [fst snd]. split; [|done].
  rewrite lookup_union. by destruct (entries !! k), (default_dict !! k).
Qed.

Lemma load_config_file_wins_witness :
  (load_config (λ _, FileObject {[ "port" := JInt 8883 ]}) "site.json").1 !! "port"
  = match ({[ "port" := JInt 8883 ]} : gmap string jvalue) !! "port" with
    | Some v => Some v
    | None => default_dict !! "port"
    end
  ∧ (load_config (λ _, FileObject {[ "port" := JInt 8883 ]}) "site.json").2 = [].
Proof.
  apply (load_config_file_wins (λ _, FileObject {[ "port" := JInt 8883 ]})
           "site.json" {[ "port" := JInt 8883 ]} "port").
  reflexivity.
Defined.

(** X3.  Whatever the file holds, the dictionary returned has an entry for
    each of the fourteen keys of the defaults, so that no later
    [config[...]] of the script can raise [KeyError]. *)
Theorem load_config_has_every_key (fs : string → file_state) (path k : string) :
  k ∈ default_entries.*1 → is_Some ((load_config fs path).1 !! k).
Proof.
  intros Hk.
  assert (Hd : is_Some (default_dict !! k)).
  { cbn in Hk. repeat (apply elem_of_cons in Hk as [-> | Hk]);
      [by vm_compute; eauto.. | by apply elem_of_nil in Hk]. }
  unfold load_config. destruct (fs path) as [|entries]; cbn [fst]; [done|].
  rewrite lookup_union. destruct Hd as [v ->]. by destruct (entries !! k); eauto.
Qed.

Lemma load_config_has_every_key_witness :
  is_Some ((load_config (λ _, FileObject {[ "site" := JStr "north" ]})
              "site.json").1 !! "mode").
Proof.
  apply (load_config_has_every_key _ "site.json" "mode"). decide_it.
Defined.

(** X4.  A file that sets only [mode] gives the defaults with that mode. *)
Theorem load_config_mode_only (fs : string → file_state) (path m : string) :
  fs path = FileObject {[ "mode" := JStr m ]} →
  read_config (load_config fs path).1 = Some (with_mode m default_config).
Proof.
  intros E. unfold load_config. rewrite E. cbn [fst].
  unfold read_config. rewrite !lookup_union, lookup_singleton_eq.
  rewrite !lookup_singleton_ne by done. done.
Qed.

Lemma load_config_mode_only_witness :
  read_config
    (load_config (λ _, FileObject {[ "mode" := JStr "fault" ]}) "c.json").1
  = Some (with_mode "fault" default_config).
Proof.
  apply (load_config_mode_only (λ _, FileObject {[ "mode" := JStr "fault" ]})
           "c.json" "fault").
  reflexivity.
Defined.

(** ** Strings and identifiers *)

Lemma starts_with_prefix p s : starts_with p s = true ↔ ∃ after, s = p +:+ after.
Proof.
  revert s. induction p as [|a p IH]; intros s.
  { split; [by exists s | done]. }
  destruct s as [|b s]; simpl.
  { split; [done | by intros [? [=]]]. }
  destruct (Ascii.eqb a b) eqn:E.
  - apply Ascii.eqb_eq in E as ->. rewrite IH. split.
    + intros [after ->]. by exists after.
    + intros [after [= ->]]. by exists after.
  - apply Ascii.eqb_neq in E. split; [done | by intros [? [= ? _]]].
Qed.

(** X5.  The test [sub in s] of the embedding is the substring relation:
    it holds exactly when [s] is some text, then [sub], then some text. *)
Theorem contains_is_substring (sub s : string) :
  contains sub s = true ↔ substring sub s.
Proof.
  unfold substring. split.
  - induction s as [|a s IH].
    + simpl. destruct (starts_with sub "") eqn:E; [|done]. intros _.
      apply starts_with_prefix in E as [after E]. exists "", after. exact E.
    + change (contains sub (String a s))
        with (if starts_with sub (String a s) then true else contains sub s).
      destruct (starts_with sub (String a s)) eqn:E.
      * intros _. apply starts_with_prefix in E as [after E].
        exists "", after. exact E.
      * intros (before & after & ->)%IH. exists (String a before), after.
        reflexivity.
  - intros (before & after & ->). induction before as [|a before IH].
    + apply contains_here, (starts_with_app sub after).
    + by apply contains_later.
Qed.

Lemma length_zfill w s : String.length (zfill w s) = (w `max` String.length s)%nat.
Proof.
  unfold zfill.
  assert (H : ∀ n t, String.length (zeros n +:+ t) = (n + String.length t)%nat).
  { intros n t. induction n as [|n IH]; simpl; [done | by rewrite IH]. }
  rewrite H. lia.
Qed.

(** X6.  For an index [i >= 0], the text of [{i:03d}] consists of digits
    only, has at least three characters, and reads back as [i]; so two
    different indices never give the same text. *)
Theorem format_03d_round_trip (i j : Z) :
  0 ≤ i → 0 ≤ j →
  all_digits (format_03d i) = true
  ∧ (3 ≤ String.length (format_03d i))%nat
  ∧ parse_dec (format_03d i) = Some (Z.to_N i)
  ∧ (format_03d i = format_03d j → i = j).
Proof.
  intros Hi Hj. split_and!.
  - by apply all_digits_format.
  - unfold format_03d. destruct (decide (i < 0)); [lia|]. rewrite length_zfill. lia.
  - by apply parse_format.
  - by apply format_inj.
Qed.

Lemma format_03d_round_trip_witness :
  all_digits (format_03d 42) = true
  ∧ (3 ≤ String.length (format_03d 42))%nat
  ∧ parse_dec (format_03d 42) = Some (Z.to_N 42)
  ∧ (format_03d 42 = format_03d 1042 → 42 = 1042).
Proof. apply (format_03d_round_trip 42 1042); lia. Defined.

(** X7.  Below 1000 the text of [{i:03d}] has exactly three characters. *)
Theorem format_03d_width (i : Z) :
  0 ≤ i < 1000 → String.length (format_03d i) = 3%nat.
Proof.
  intros Hi.
  assert (H : Forall (λ k, String.length (format_03d k) = 3%nat) (seqZ 0 1000)).
  { apply (bool_decide_unpack _). by vm_compute. }
  rewrite Forall_forall in H. apply H, elem_of_seqZ. lia.
Qed.

Lemma format_03d_width_witness : String.length (format_03d 999) = 3%nat.
Proof. apply (format_03d_width 999). lia. Defined.

(** X8.  An identifier tells its subtype token and its index: within one
    category, two identifiers are equal only if they were made from the
    same token and the same index. *)
Theorem make_id_decodes (t : type_name) (typ1 typ2 : string) (i1 i2 : Z) :
  typ1 ∈ category_tokens t → typ2 ∈ category_tokens t → 0 ≤ i1 → 0 ≤ i2 →
  make_id (category_prefix t) typ1 i1 = make_id (category_prefix t) typ2 i2 →
  typ1 = typ2 ∧ i1 = i2.
Proof.
  intros H1 H2 Hi1 Hi2 E.
  destruct (category_separable t typ1 typ2 _ _ H1 H2 E) as [-> Hf].
  split; [done|]. by apply format_inj.
Qed.

Lemma make_id_decodes_witness :
  make_id (category_prefix env) "dust" 3 = "env_dust_003"
  ∧ "dust" = "dust" ∧ 3 = 3.
Proof.
  split; [reflexivity|].
  apply (make_id_decodes env "dust" "dust" 3 3);
    [in_list | in_list | lia | lia | reflexivity].
Defined.

(** ** The registry as a whole *)

Lemma category_ids_length c t :
  length (category_ids c t) = Z.to_nat (category_count c t).
Proof.
  destruct (decide (0 ≤ category_count c t)) as [Hn | Hn].
  - rewrite category_ids_grid by done. apply length_take_le.
    rewrite length_id_grid. by apply category_block_covers.
  - rewrite category_ids_negative by lia. simpl. lia.
Qed.

(** X9.  No identifier occurs twice in [all_devices], within a category or
    across categories, whatever the configured counts. *)
Theorem registry_ids_distinct (c : config) : NoDup (all_devices c).
Proof. apply all_devices_NoDup. Qed.

(** X10.  The number of devices, hence of threads, is the sum of the four
    configured counts, a negative count counting as zero. *)
Theorem registry_size (c : config) :
  length (all_devices c)
  = (Z.to_nat (num_vehicles c) + Z.to_nat (num_fixed_assets c)
     + Z.to_nat (num_env_sensors c) + Z.to_nat (num_personnel c))%nat.
Proof.
  unfold all_devices. rewrite !length_app.
  pose proof (category_ids_length c vehicle).
  pose proof (category_ids_length c fixed).
  pose proof (category_ids_length c env).
  pose proof (category_ids_length c personnel_t).
  simpl in *. lia.
Qed.

Lemma category_prefix_test t : prefix_test (category_prefix t) (category_tokens t).
Proof.
  intros t1 t2 s H1 H2.
  destruct t; cbn [category_prefix category_tokens] in *;
    by_cases H1; by_cases H2;
    cbv [String.append String.app]; cbn; reflexivity.
Qed.

Lemma filter_none {A} (f : A → bool) (l : list A) :
  (∀ x, x ∈ l → f x = false) → List.filter f l = [].
Proof.
  induction l as [|a l IH]; intros H; [done|]. simpl.
  rewrite (H a) by left. apply IH. intros x Hx. apply H. by right.
Qed.

Lemma filter_all {A} (f : A → bool) (l : list A) :
  (∀ x, x ∈ l → f x = true) → List.filter f l = l.
Proof.
  induction l as [|a l IH]; intros H; [done|]. simpl.
  rewrite (H a) by left. f_equal. apply IH. intros x Hx. apply H. by right.
Qed.

Lemma subtype_count_app pre typ l k :
  subtype_count pre typ (l ++ k)
  = (subtype_count pre typ l + subtype_count pre typ k)%nat.
Proof. unfold subtype_count. by rewrite List.filter_app, length_app. Qed.

Lemma subtype_count_block pre toks typ typ' m n :
  prefix_test pre toks → typ ∈ toks → typ' ∈ toks →
  subtype_count pre typ (take n (make_id pre typ' <$> seqZ 0 m))
  = if decide (typ = typ') then (n `min` Z.to_nat m)%nat else 0%nat.
Proof.
  intros Htest H H'. unfold subtype_count. destruct (decide (typ = typ')) as [<- | Hne].
  - rewrite filter_all.
    + by rewrite length_take, length_fmap, length_seqZ.
    + intros x (i & Hx & _)%elem_of_take. apply list_lookup_fmap_Some in Hx as (k & -> & _).
      unfold make_id. rewrite Htest by done. by apply bool_decide_eq_true.
  - rewrite filter_none; [done|].
    intros x (i & Hx & _)%elem_of_take. apply list_lookup_fmap_Some in Hx as (k & -> & _).
    unfold make_id. rewrite Htest by done. by apply bool_decide_eq_false.
Qed.

Lemma subtype_count_grid pre all toks typ m n j :
  prefix_test pre all → toks ⊆ all → NoDup toks → toks !! j = Some typ →
  subtype_count pre typ (take n (id_grid pre toks m))
  = (Z.to_nat m `min` (n - j * Z.to_nat m))%nat.
Proof.
  intros Htest. revert n j.
  induction toks as [|t toks IH]; intros n j Hsub Hnd Hj; [done|].
  apply NoDup_cons in Hnd as [Ht Hnd].
  assert (Hall : t ∈ all) by (apply Hsub; left).
  assert (Hsub' : toks ⊆ all) by (intros x Hx; apply Hsub; by right).
  rewrite id_grid_cons, take_app, subtype_count_app, length_fmap, length_seqZ.
  destruct j as [|j]; simpl in Hj.
  - injection Hj as ->.
    rewrite (subtype_count_block pre all typ typ) by done.
    destruct (decide (typ = typ)); [|done].
    unfold subtype_count at 1. rewrite filter_none; [simpl; lia|].
    intros x (i & Hx & _)%elem_of_take.
    apply list_elem_of_lookup_2, elem_of_id_grid in Hx as (t' & k & Ht' & _ & ->).
    unfold make_id. rewrite Htest by auto. apply bool_decide_eq_false.
    intros ->. done.
  - assert (Htyp : typ ∈ toks) by (by eapply list_elem_of_lookup_2).
    rewrite (subtype_count_block pre all typ t) by auto.
    destruct (decide (typ = t)) as [-> | _]; [done|].
    rewrite (IH _ j) by done. simpl. f_equal. lia.
Qed.

(** X11.  How many identifiers each subtype gets.  With [n] the configured
    count of a category (a negative count counting as zero) and [b] the
    block size [n // k + 1] ([n] itself for personnel), the subtype at
    position [j] of the token list gets [min(b, n - j*b)] identifiers, and
    none once [j*b] reaches [n]. *)
Theorem subtype_share (c : config) (t : type_name) (j : nat) (typ : string) :
  category_tokens t !! j = Some typ →
  subtype_count (category_prefix t) typ (category_ids c t)
  = (Z.to_nat (category_block c t)
     `min` (Z.to_nat (category_count c t) - j * Z.to_nat (category_block c t)))%nat.
Proof.
  intros Hj. destruct (decide (0 ≤ category_count c t)) as [Hn | Hn].
  - rewrite category_ids_grid by done.
    apply (subtype_count_grid _ (category_tokens t));
      [apply category_prefix_test | done | apply category_tokens_NoDup | done].
  - rewrite category_ids_negative by lia.
    replace (Z.to_nat (category_count c t)) with 0%nat by lia.
    unfold subtype_count. simpl. lia.
Qed.

Lemma subtype_share_witness :
  subtype_count "" "excavator" (vehicles (with_counts 7 0 0 0 default_config))
  = 1%nat.
Proof.
  apply (subtype_share (with_counts 7 0 0 0 default_config) vehicle 2 "excavator").
  reflexivity.
Defined.

(** ** The sample generator *)



Lemma fault_key_in_table t : fault_key t ∈ (metric_ranges t).*1.
Proof. destruct t; cbn; in_list. Qed.

Lemma generated_keys `{RT : Runtime} c t w k :
  is_Some ((gen_metrics c (metric_ranges t) w).1 !! k) ↔ k ∈ (metric_ranges t).*1.
Proof.
  split.
  - intros Hk. destruct (decide (k ∈ (metric_ranges t).*1)) as [|Hn]; [done|].
    rewrite gen_metrics_other in Hk by done. by destruct Hk.
  - intros ([k' r] & -> & Hin)%list_elem_of_fmap. cbn [fst].
    destruct (gen_metrics_spec c t w k' r Hin) as (v & -> & _). eauto.
Qed.

(** X13.  Every record carries exactly the metrics of its type's table,
    five of them, in every mode: a fault changes the value of one metric
    and never adds or removes one. *)
Theorem record_has_table_keys `{RT : Runtime} (c : config) (d mode : string)
    (w : world) (t : type_name) :
  get_device_type d = Some t →
  ∃ p w', simulate_payload c d mode w = (inr p, w')
    ∧ dom (p_metrics p) = list_to_set (metric_ranges t).*1
    ∧ size (p_metrics p) = 5%nat.
Proof.
  intros Ht.
  destruct (simulate_payload_spec c d mode w t Ht) as (p & w' & E & _ & _ & H).
  exists p, w'. split; [done|].
  assert (Hdom : dom (p_metrics p) = list_to_set (metric_ranges t).*1).
  { apply set_eq. intros k. rewrite elem_of_dom, elem_of_list_to_set.
    rewrite <- (generated_keys c t w k).
    destruct H as [(_ & _ & Heff & _) | (_ & -> & _)]; [|done].
    destruct (decide (k = fault_key t)) as [-> | Hk].
    - pose proof (proj2 (generated_keys c t w (fault_key t)) (fault_key_in_table t)).
      split; [done|]. intros _.
      destruct t; simpl in Heff;
        [destruct Heff as (x & _ & ->) | rewrite Heff
        | destruct Heff as (x & _ & ->) | rewrite Heff];
        cbn [fault_key]; rewrite lookup_insert_eq; eauto.
    - by rewrite (fault_effect_other _ _ _ _ Heff Hk). }
  split; [done|].
  rewrite <- size_dom, Hdom, size_list_to_set by apply table_ok.
  by destruct t.
Qed.

Lemma record_has_table_keys_witness :
  ∃ p w',
    @simulate_payload tape_runtime (with_mode "fault" default_config)
      "conveyor_002" "fault" [150; 20]%nat = (inr p, w')
    ∧ dom (p_metrics p) = list_to_set (metric_ranges fixed).*1
    ∧ size (p_metrics p) = 5%nat.
Proof.
  apply (@record_has_table_keys tape_runtime (with_mode "fault" default_config)
           "conveyor_002" "fault" [150; 20]%nat fixed).
  vm_compute. reflexivity.
Defined.

(** X15.  Without variance, a fault is visible in the numbers: the
    [engine_temp] of a faulted vehicle record lies in [110, 140] and the
    [methane] of a faulted environmental record in [10, 15], above the
    declared ranges [60, 90] and [0, 5]. *)
Theorem fault_shifts_range `{RT : Runtime} (c : config) (d mode : string)
    (w w' : world) (p : payload) :
  (variance c == 0)%Q →
  simulate_payload c d mode w = (inr p, w') →
  p_status p ≠ "normal" →
  (p_type p = vehicle →
     ∃ x, p_metrics p !! "engine_temp" = Some (VNum x) ∧ (110 <= x ∧ x <= 140)%Q)
  ∧ (p_type p = env →
     ∃ x, p_metrics p !! "methane" = Some (VNum x) ∧ (10 <= x ∧ x <= 15)%Q).
Proof.
  intros Hv E Hst.
  destruct (get_device_type d) as [t|] eqn:Ht;
    [|unfold simulate_payload in E; by rewrite Ht in E].
  destruct (simulate_payload_spec c d mode w t Ht)
    as (p0 & w0 & E0 & _ & Hty & H).
  rewrite E in E0. injection E0 as <- <-.
  destruct H as [(_ & _ & Heff & _) | (_ & _ & ?)]; [|done].
  split; intros Htype; rewrite Htype in Hty; subst t; cbn [fault_effect] in Heff;
    destruct Heff as (x & Hx & ->); rewrite lookup_insert_eq;
    eexists; (split; [done|]).
  - destruct (gen_metrics_spec c vehicle w "engine_temp" (ScalarRange 60 90))
      as (v & Hv' & Hd); [in_list|].
    rewrite Hx in Hv'. injection Hv' as <-.
    apply (drawn_in_declared c (ScalarRange 60 90) _ Hv eq_refl) in Hd.
    cbn in Hd. lra.
  - destruct (gen_metrics_spec c env w "methane" (ScalarRange 0 5))
      as (v & Hv' & Hd); [in_list|].
    rewrite Hx in Hv'. injection Hv' as <-.
    apply (drawn_in_declared c (ScalarRange 0 5) _ Hv eq_refl) in Hd.
    cbn in Hd. lra.
Qed.

Lemma fault_shifts_range_witness :
  ∃ p w',
    @simulate_payload tape_runtime (with_variance 0 default_config)
      "env_methane_000" "fault" [0; 0; 500; 0; 0; 0; 0; 0; 0; 0; 0; 0; 100]%nat
    = (inr p, w')
    ∧ p_status p ≠ "normal"
    ∧ (p_type p = env →
       ∃ x, p_metrics p !! "methane" = Some (VNum x) ∧ (10 <= x ∧ x <= 15)%Q).
Proof.
  assert (E : ∃ p w',
    @simulate_payload tape_runtime (with_variance 0 default_config)
      "env_methane_000" "fault" [0; 0; 500; 0; 0; 0; 0; 0; 0; 0; 0; 0; 100]%nat
    = (inr p, w') ∧ p_status p ≠ "normal").
  { eexists _, _. split; [vm_compute; reflexivity | discriminate]. }
  destruct E as (p & w' & E & Hst). exists p, w'.
  split; [exact E|]. split; [exact Hst|].
  apply (proj2 (@fault_shifts_range tape_runtime (with_variance 0 default_config)
                  "env_methane_000" "fault" _ w' p ltac:(reflexivity) E Hst)).
Defined.

(** ** The publish loop *)






Lemma step_events `{RT : Runtime} c d mode s :
  Forall (event_ok c d) (trace s) →
  Forall (event_ok c d) (trace (publish_step c d mode s)).
Proof.
  intros H. unfold publish_step. destruct s as [k b t w]. cbn [ctl buffer trace rt] in *.
  destruct k as [| x | x | x | x [|y pending] | x | x | x | e]; cbn [trace]; try done.
  - destruct (simulate_data c d mode w) as [[e | x] w1]; done.
  - destruct (decide _); [|done].
    destruct (random_random w) as [u w1]. by destruct (Qltb u 0.3).
  - pose proof (randint_range 10 30 w ltac:(lia)) as Hsecs.
    destruct (randint 10 30 w) as [secs w1]. cbn [trace fst] in *.
    apply Forall_app. split; [done|]. constructor; [by right | constructor].
  - apply Forall_app. split; [done|]. constructor; [done | constructor].
  - apply Forall_app. split; [done|]. constructor; [done | constructor].
  - destruct (decide _); [done|]. cbn [trace].
    apply Forall_app. split; [done|]. constructor; [by left | constructor].
Qed.

(** X17.  A device thread publishes on the topic [mining/<device id>] with
    QoS 1 and on no other topic, and it sleeps either for the configured
    frequency or for an outage of 10 to 30 seconds. *)
Theorem thread_events_well_formed `{RT : Runtime} (c : config) (d mode : string)
    (s : loop_state) :
  reachable c d mode s → Forall (event_ok c d) (trace s).
Proof.
  intros (n & w & ->). induction n as [|n IH]; [constructor|].
  by apply step_events.
Qed.

Lemma thread_events_well_formed_witness :
  Forall (event_ok (with_mode "intermittent" default_config) "vent_system_001")
    (trace (@publish_loop tape_runtime (with_mode "intermittent" default_config)
              "vent_system_001" "intermittent" 20
              (@enter tape_runtime [0; 0; 0; 0; 0; 0; 0; 0; 0; 0; 640; 18]%nat))).
Proof.
  apply (@thread_events_well_formed tape_runtime
           (with_mode "intermittent" default_config) "vent_system_001"
           "intermittent").
  exists 20%nat, [0; 0; 0; 0; 0; 0; 0; 0; 0; 0; 640; 18]%nat. reflexivity.
Defined.

(** X18.  For an identifier without category word the thread ends at its
    first statement with the [KeyError] of [simulate_data]: it never
    publishes, never sleeps and draws no random number. *)
Theorem unknown_device_thread_dies `{RT : Runtime} (c : config) (d mode : string)
    (w : world) (n : nat) :
  no_token d →
  publish_loop c d mode (S n) (enter w) = LoopState (Raised (KeyError None)) [] [] w.
Proof.
  intros H%no_token_unresolved. induction n as [|n IH].
  - cbn. unfold publish_step, enter, simulate_data, simulate_payload.
    cbn [ctl rt]. by rewrite H.
  - change (publish_loop c d mode (S (S n)) (enter w))
      with (publish_step c d mode (publish_loop c d mode (S n) (enter w))).
    by rewrite IH.
Qed.

Lemma unknown_device_thread_dies_witness :
  @publish_loop tape_runtime default_config "drill_rig_001" "normal" 3
    (@enter tape_runtime [5; 6; 7]%nat)
  = @LoopState tape_runtime (Raised (KeyError None)) [] [] [5; 6; 7]%nat.
Proof.
  apply (@unknown_device_thread_dies tape_runtime default_config "drill_rig_001"
           "normal" [5; 6; 7]%nat 2).
  intros tok Htok. by_cases Htok; reflexivity.
Defined.

Lemma step_direct `{RT : Runtime} c d mode s :
  mode ≠ "intermittent" →
  buffer s = [] ∧ Forall (tick_only c) (trace s) ∧ direct_control (ctl s) →
  buffer (publish_step c d mode s) = []
  ∧ Forall (tick_only c) (trace (publish_step c d mode s))
  ∧ direct_control (ctl (publish_step c d mode s)).
Proof.
  intros Hmode (Hb & Ht & Hk). unfold publish_step.
  destruct s as [k b t w]. cbn [ctl buffer trace rt] in *. subst b.
  destruct k as [| x | x | x | x [|y pending] | x | x | x | e];
    cbn [direct_control] in Hk; try done.
  - by destruct (simulate_data c d mode w) as [[e | x] w1].
  - by destruct (decide _).
  - cbn [ctl buffer trace]. split_and!; [done | | done].
    apply Forall_app. split; [done|]. constructor; [done | constructor].
  - destruct (decide _); [done|]. cbn [ctl buffer trace].
    split_and!; [done | | done].
    apply Forall_app. split; [done|]. constructor; [done | constructor].
Qed.

(** X19.  In the modes [normal] and [fault] (any mode other than
    [intermittent]) the thread never enters the outage branch: the buffer is
    always empty and every sleep is the tick wait of the configured
    frequency. *)
Theorem no_outage_outside_intermittent `{RT : Runtime} (c : config)
    (d mode : string) (s : loop_state) :
  mode ≠ "intermittent" →
  reachable c d mode s →
  buffer s = [] ∧ Forall (tick_only c) (trace s) ∧ direct_control (ctl s).
Proof.
  intros Hmode (n & w & ->). induction n as [|n IH].
  - split_and!; [done | constructor | done].
  - by apply step_direct.
Qed.

Lemma no_outage_outside_intermittent_witness :
  buffer (@publish_loop tape_runtime (with_mode "fault" default_config)
            "excavator_001" "fault" 11 (@enter tape_runtime [])) = []
  ∧ Forall (tick_only (with_mode "fault" default_config))
      (trace (@publish_loop tape_runtime (with_mode "fault" default_config)
                "excavator_001" "fault" 11 (@enter tape_runtime [])))
  ∧ direct_control
      (ctl (@publish_loop tape_runtime (with_mode "fault" default_config)
              "excavator_001" "fault" 11 (@enter tape_runtime []))).
Proof.
  apply (@no_outage_outside_intermittent tape_runtime
           (with_mode "fault" default_config) "excavator_001" "fault").
  - discriminate.
  - exists 11%nat, []. reflexivity.
Defined.







(** ** Start-up *)

(** X22.  Where start-up connects to.  With [broker = aws] and an endpoint
    it is the endpoint on port 8883 with the TLS paths, and the configured
    port is ignored; in every other case, also for [broker = aws] without
    endpoint, it is the host named by [broker] on the configured port,
    without TLS. *)
Theorem startup_connection (c : config) (conn : connection)
    (threads : list (string * string)) :
  startup c = inr (conn, threads) →
  (broker c = "aws" ∧ truthy (aws_endpoint c) = true
   ∧ aws_endpoint c = Some (endpoint conn) ∧ conn_port conn = 8883
   ∧ tls conn = Some (ca c, cert c, key c))
  ∨ ((broker c ≠ "aws" ∨ truthy (aws_endpoint c) = false)
     ∧ endpoint conn = broker c ∧ conn_port conn = port c ∧ tls conn = None).
Proof.
  unfold startup, validate_mode, configure_client.
  destruct (decide (mode c ∈ modes)); [|done].
  destruct (String.eqb_spec (broker c) "aws") as [Hb | Hb].
  - destruct (aws_endpoint c) as [[|a ep]|] eqn:Hep; cbn [truthy andb].
    + intros [= <- _]. right. auto.
    + destruct (truthy (cert c) && truthy (key c) && truthy (ca c)); [|done].
      cbn [negb]. intros [= <- _]. left. by split_and!.
    + intros [= <- _]. right. auto.
  - cbn [andb]. intros [= <- _]. right. auto.
Qed.

Lemma startup_connection_witness :
  ("aws" = "aws" ∧ true = true
   ∧ Some "a1.iot.example.com" = Some "a1.iot.example.com"
   ∧ 8883 = 8883
   ∧ Some (Some "ca.pem", Some "dev.crt", Some "dev.key")
     = Some (Some "ca.pem", Some "dev.crt", Some "dev.key"))
  ∨ (("aws" ≠ "aws" ∨ true = false)
     ∧ "a1.iot.example.com" = "aws" ∧ 8883 = 1883
     ∧ Some (Some "ca.pem", Some "dev.crt", Some "dev.key") = None).
Proof.
  apply (startup_connection
           (Config 0 0 0 1 10 0 42 "normal" "aws" 1883
              (Some "a1.iot.example.com") (Some "dev.crt") (Some "dev.key")
              (Some "ca.pem"))
           (Connection "a1.iot.example.com" 8883
              (Some (Some "ca.pem", Some "dev.crt", Some "dev.key")))
           [("personnel_000", "normal")]).
  vm_compute. reflexivity.
Defined.
